(** * clear_the_clutter: the extension-based directory organizer

    A shallow embedding of [src/exercises/clear_the_clutter/main.js].  The
    script lists the directory [__dirname/files] and, for every entry,
    takes [path.extname(file).slice(1)] as the name of a folder inside the
    listed directory, creates that folder when [fs.existsSync] says it is
    missing, and renames the entry into it; every rename sits in a
    [try/catch] of its own and the whole script in an outer one.

    The development has four layers:
    - [Path]: JavaScript strings, [path.extname], [String.prototype.slice]
      and [path.join] (POSIX flavour of Node's [path] module);
    - [Script]: the script itself, written once over an abstract
      file-system provider in a small state-and-exception monad that also
      records the console and the file-system calls;
    - [MemFS] and [FaultyFS]: two providers, an in-memory POSIX directory
      tree and the same tree with calls that are made to fail;
    - the properties of the organizer. *)

From Stdlib Require Import String Ascii List ZArith Lia Bool.
Import ListNotations.
Local Open Scope string_scope.
Local Open Scope list_scope.

(* ===================================================================== *)
(** ** Strings and paths *)
(* ===================================================================== *)

Module Path.

(** [CHAR_FORWARD_SLASH] and [CHAR_DOT] of Node's [lib/path.js]. *)
Definition is_slash (c : ascii) : bool := Ascii.eqb c "/"%char.
Definition is_dot (c : ascii) : bool := Ascii.eqb c "."%char.

(** The loop variables of [posix.extname]. *)
Record ext_state : Type := mkExt {
  startDot : Z;
  startPart : Z;
  endIdx : Z;
  matchedSlash : bool;
  preDotState : Z
}.

Definition ext_init : ext_state :=
  {| startDot := -1; startPart := 0; endIdx := -1;
     matchedSlash := true; preDotState := 0 |}.

(** One iteration of the [for (let i = path.length - 1; i >= 0; --i)] loop
    of [posix.extname] at index [i], where [code] is [path.charCodeAt(i)].
    The boolean is [true] when the iteration leaves the loop by [break]. *)
Definition ext_iter (i : Z) (code : ascii) (st : ext_state) : ext_state * bool :=
  if is_slash code then
    if negb (matchedSlash st)
    then (mkExt (startDot st) (i + 1) (endIdx st) (matchedSlash st) (preDotState st), true)
    else (st, false)
  else
    let st1 :=
      if (endIdx st =? -1)%Z
      then mkExt (startDot st) (startPart st) (i + 1) false (preDotState st)
      else st in
    let st2 :=
      if is_dot code then
        if (startDot st1 =? -1)%Z
        then mkExt i (startPart st1) (endIdx st1) (matchedSlash st1) (preDotState st1)
        else if negb (preDotState st1 =? 1)%Z
             then mkExt (startDot st1) (startPart st1) (endIdx st1) (matchedSlash st1) 1
             else st1
      else if negb (startDot st1 =? -1)%Z
           then mkExt (startDot st1) (startPart st1) (endIdx st1) (matchedSlash st1) (-1)
           else st1 in
    (st2, false).

(** The loop itself.  [rs] holds the characters still to be visited, the one
    of highest index first, so the head of [rs] has index [length (tl rs)]. *)
Fixpoint ext_loop (rs : list ascii) (st : ext_state) : ext_state :=
  match rs with
  | [] => st
  | code :: rs' =>
      let '(st', brk) := ext_iter (Z.of_nat (length rs')) code st in
      if brk then st' else ext_loop rs' st'
  end.

(** [String.prototype.slice(start, end)] for [0 <= start], [0 <= end]. *)
Definition slice (s : list ascii) (a b : Z) : list ascii :=
  firstn (Z.to_nat b - Z.to_nat a) (skipn (Z.to_nat a) s).

(** [str.slice(1)]. *)
Definition slice1 (s : list ascii) : list ascii := skipn 1 s.

(** [path.extname] (POSIX), on character lists. *)
Definition extname_chars (p : list ascii) : list ascii :=
  let st := ext_loop (rev p) ext_init in
  if (startDot st =? -1)%Z
     || (endIdx st =? -1)%Z
     || (preDotState st =? 0)%Z
     || ((preDotState st =? 1)%Z
         && (startDot st =? endIdx st - 1)%Z
         && (startDot st =? startPart st + 1)%Z)
  then []
  else slice p (startDot st) (endIdx st).

Definition extname (p : string) : string :=
  string_of_list_ascii (extname_chars (list_ascii_of_string p)).

(** [let extName = path.extname(file).slice(1)] of [main.js], line 9. *)
Definition extName (file : string) : string :=
  string_of_list_ascii (slice1 (extname_chars (list_ascii_of_string file))).

(** A path is kept as the list of the components of an absolute,
    normalised POSIX path: [["home"; "u"; "files"]] is [/home/u/files]. *)
Definition path : Type := list string.

(** The pieces of [s] between its slashes. *)
Fixpoint split_slash_aux (cur : list ascii) (s : list ascii) : list (list ascii) :=
  match s with
  | [] => [rev cur]
  | c :: s' =>
      if is_slash c then rev cur :: split_slash_aux [] s'
      else split_slash_aux (c :: cur) s'
  end.

Definition split_slash (s : string) : list string :=
  map string_of_list_ascii (split_slash_aux [] (list_ascii_of_string s)).

(** What [posix.normalize] does with one more component: empty components
    and [.] are dropped, [..] removes the last component (the root is its
    own parent). *)
Definition push_segment (p : path) (seg : string) : path :=
  if String.eqb seg "" then p
  else if String.eqb seg "." then p
  else if String.eqb seg ".." then removelast p
  else p ++ [seg].

(** [path.join(p, s)] for an absolute, normalised [p]:
    [normalize(p + "/" + s)]. *)
Definition path_join (p : path) (s : string) : path :=
  fold_left push_segment (split_slash s) p.

(** The string has no character [c]. *)
Definition lacks (c : ascii) (s : string) : Prop :=
  ~ In c (list_ascii_of_string s).

Definition lacksb (c : ascii) (s : string) : bool :=
  negb (existsb (Ascii.eqb c) (list_ascii_of_string s)).

(** A name [readdir] can return: not empty, not [.] or [..], no slash. *)
Definition valid_nameb (n : string) : bool :=
  negb (String.eqb n "") && negb (String.eqb n ".") && negb (String.eqb n "..")
  && lacksb "/"%char n.

Definition valid_name (n : string) : Prop := valid_nameb n = true.

End Path.

Import Path.

(* ===================================================================== *)
(** ** The script *)
(* ===================================================================== *)

Module Script.

(** The [code] of the [Error] a call of the [fs] module throws. *)
Inductive errno : Type :=
| ENOENT | ENOTDIR | EISDIR | ENOTEMPTY | EEXIST | EINVAL | EBUSY | ENOSPC.

(** Completion of a JavaScript computation: a value, or a thrown error. *)
Inductive result (A : Type) : Type :=
| Ok (a : A)
| Throw (err : errno).
Arguments Ok {A} a.
Arguments Throw {A} err.

(** The file-system provider: the four calls of the [fs] module the script
    makes, as functions of the state of the disk.  A call that throws
    leaves the disk as it was. *)
Class FileSystem (FS : Type) : Type := {
  fs_readdir : path -> FS -> result (list string);
  fs_exists : path -> FS -> bool;
  fs_mkdir_recursive : path -> FS -> result FS;
  fs_rename : path -> path -> FS -> result FS
}.

(** What the script writes to the console. *)
Inductive console_line : Type :=
| folder_exists                              (* console.log("folder exists") *)
| File_moved_successfully                    (* console.log("File moved successfully!") *)
| error_line (err : errno)                   (* console.error(err) *)
| Error_reading_directory (err : errno).     (* console.error("Error reading directory:", err) *)

(** The calls made to the provider, with the paths they were given. *)
Inductive fs_call : Type :=
| call_readdir (p : path)
| call_exists (p : path)
| call_mkdir (p : path)
| call_rename (src dst : path).

Record world (FS : Type) : Type := mkWorld {
  disk : FS;
  console : list console_line;
  calls : list fs_call
}.
Arguments mkWorld {FS} _ _ _.
Arguments disk {FS} _.
Arguments console {FS} _.
Arguments calls {FS} _.

(** Computations: the world is threaded through, and survives a throw. *)
Definition M (FS A : Type) : Type := world FS -> result A * world FS.

Definition ret {FS A} (a : A) : M FS A := fun w => (Ok a, w).

Definition bind {FS A B} (c : M FS A) (k : A -> M FS B) : M FS B :=
  fun w =>
    match c w with
    | (Ok a, w') => k a w'
    | (Throw err, w') => (Throw err, w')
    end.

(** [try { c } catch (err) { h(err) }]. *)
Definition try_catch {FS A} (c : M FS A) (h : errno -> M FS A) : M FS A :=
  fun w =>
    match c w with
    | (Ok a, w') => (Ok a, w')
    | (Throw err, w') => h err w'
    end.

Declare Scope script_scope.
Delimit Scope script_scope with script.
Notation "x <- c ;; k" := (bind c (fun x => k))
  (at level 61, c at next level, right associativity) : script_scope.
Notation "c ;; k" := (bind c (fun _ => k))
  (at level 61, right associativity) : script_scope.
Local Open Scope script_scope.

Definition record_call {FS} (c : fs_call) (w : world FS) : world FS :=
  mkWorld (disk w) (console w) (calls w ++ [c]).

Definition console_write {FS} (l : console_line) : M FS unit :=
  fun w => (Ok tt, mkWorld (disk w) (console w ++ [l]) (calls w)).

Definition console_log {FS} := @console_write FS.
Definition console_error {FS} := @console_write FS.

Section Calls.
Context {FS : Type} `{FileSystem FS}.

Definition readdirSync (p : path) : M FS (list string) :=
  fun w => (fs_readdir p (disk w), record_call (call_readdir p) w).

Definition existsSync (p : path) : M FS bool :=
  fun w => (Ok (fs_exists p (disk w)), record_call (call_exists p) w).

(** A provider call that changes the disk. *)
Definition update_disk (c : fs_call) (r : result FS) : M FS unit :=
  fun w =>
    match r with
    | Ok d => (Ok tt, mkWorld d (console w) (calls w ++ [c]))
    | Throw err => (Throw err, record_call c w)
    end.

(** [fs.mkdirSync(p, { recursive: true })]. *)
Definition mkdirSync (p : path) : M FS unit :=
  fun w => update_disk (call_mkdir p) (fs_mkdir_recursive p (disk w)) w.

Definition renameSync (src dst : path) : M FS unit :=
  fun w => update_disk (call_rename src dst) (fs_rename src dst (disk w)) w.

(** [xs.forEach(f)], from index [i] on: a throw of [f] ends the iteration. *)
Fixpoint forEach_from (i : nat) (xs : list string) (f : string -> nat -> M FS unit)
  : M FS unit :=
  match xs with
  | [] => ret tt
  | x :: xs' => f x i ;; forEach_from (S i) xs' f
  end.

Definition forEach := forEach_from 0.

(** Lines 12-17 of [main.js], and again lines 20-25: the rename in a
    [try/catch] of its own. *)
Definition try_rename (fullPath : path) (extName file : string) : M FS unit :=
  try_catch
    (renameSync (path_join fullPath file)
                (path_join (path_join fullPath extName) file) ;;
     console_log File_moved_successfully)
    (fun err => console_error (error_line err)).

(** The callback of [files.forEach], lines 8-27. *)
Definition each_file (fullPath : path) (file : string) (index : nat) : M FS unit :=
  let extName := Path.extName file in
  found <- existsSync (path_join fullPath extName) ;;
  if found : bool then
    console_log folder_exists ;;
    try_rename fullPath extName file
  else
    mkdirSync (path_join fullPath extName) ;;
    try_rename fullPath extName file.

(** The body of the outer [try], lines 5-27. *)
Definition organize_body (dirname : path) : M FS unit :=
  let fullPath := path_join dirname "files" in
  files <- readdirSync fullPath ;;
  forEach files (each_file fullPath).

(** The whole script; [dirname] is [__dirname]. *)
Definition organize (dirname : path) : M FS unit :=
  try_catch (organize_body dirname)
            (fun err => console_error (Error_reading_directory err)).

(** Running the script on a disk, with an empty console. *)
Definition run (dirname : path) (d : FS) : result unit * world FS :=
  organize dirname (mkWorld d [] []).

End Calls.

End Script.

Import Script.
Local Open Scope script_scope.

(* ===================================================================== *)
(** ** An in-memory POSIX directory tree *)
(* ===================================================================== *)

Module MemFS.

(** A node of the tree: a regular file with its content, or a directory
    with its entries in the order [readdir] lists them. *)
#[warnings="-register-all"] Inductive node : Type :=
| File (data : string)
| Dir (entries : list (string * node)).

Fixpoint assoc (k : string) (es : list (string * node)) : option node :=
  match es with
  | [] => None
  | (k', v) :: es' => if String.eqb k k' then Some v else assoc k es'
  end.

(** Link [k] to [v]: in place when [k] is linked already, else at the end. *)
Fixpoint bind_entry (k : string) (v : node) (es : list (string * node))
  : list (string * node) :=
  match es with
  | [] => [(k, v)]
  | (k', v') :: es' =>
      if String.eqb k k' then (k, v) :: es' else (k', v') :: bind_entry k v es'
  end.

(** Unlink [k]. *)
Definition unbind_entry (k : string) (es : list (string * node))
  : list (string * node) :=
  filter (fun e => negb (String.eqb k (fst e))) es.

(** Path resolution from the root [t]. *)
Fixpoint lookup (p : path) (t : node) : option node :=
  match p with
  | [] => Some t
  | c :: p' =>
      match t with
      | Dir es =>
          match assoc c es with
          | Some m => lookup p' m
          | None => None
          end
      | File _ => None
      end
  end.

(** Rewrite the entries of the directory at [p]; [None] when [p] is not a
    directory. *)
Fixpoint modify (p : path) (f : list (string * node) -> list (string * node))
  (t : node) : option node :=
  match t with
  | File _ => None
  | Dir es =>
      match p with
      | [] => Some (Dir (f es))
      | c :: p' =>
          match assoc c es with
          | Some m =>
              match modify p' f m with
              | Some m' => Some (Dir (bind_entry c m' es))
              | None => None
              end
          | None => None
          end
      end
  end.

Definition parent (p : path) : path := removelast p.
Definition basename (p : path) : string := last p "".

Fixpoint path_eqb (p q : path) : bool :=
  match p, q with
  | [], [] => true
  | a :: p', b :: q' => String.eqb a b && path_eqb p' q'
  | _, _ => false
  end.

(** [p] is [q] or an ancestor of [q]. *)
Fixpoint is_prefix (p q : path) : bool :=
  match p, q with
  | [], _ => true
  | a :: p', b :: q' => String.eqb a b && is_prefix p' q'
  | _ :: _, [] => false
  end.

Definition exists_at (p : path) (t : node) : bool :=
  match lookup p t with Some _ => true | None => false end.

Definition readdir (p : path) (t : node) : result (list string) :=
  match lookup p t with
  | Some (Dir es) => Ok (map fst es)
  | Some (File _) => Throw ENOTDIR
  | None => Throw ENOENT
  end.

(** [mkdir -p]: the directories missing on the way to [p] are created; a
    regular file on the way is an error, an existing directory is not. *)
Fixpoint mkdir_p (p : path) (t : node) : result node :=
  match t with
  | File _ => Throw (match p with [] => EEXIST | _ :: _ => ENOTDIR end)
  | Dir es =>
      match p with
      | [] => Ok t
      | c :: p' =>
          match mkdir_p p' (match assoc c es with Some m => m | None => Dir [] end) with
          | Ok m' => Ok (Dir (bind_entry c m' es))
          | Throw err => Throw err
          end
      end
  end.

(** [rename(2)]: a path renamed onto itself stays; a regular file replaces
    a regular file, a directory replaces an empty directory; every failure
    leaves the tree as it was. *)
Definition rename (src dst : path) (t : node) : result node :=
  match lookup src t with
  | None => Throw ENOENT
  | Some v =>
      if path_eqb src dst then Ok t
      else
        match src, dst with
        | [], _ | _, [] => Throw EBUSY
        | _ :: _, _ :: _ =>
            match lookup (parent dst) t with
            | None => Throw ENOENT
            | Some (File _) => Throw ENOTDIR
            | Some (Dir _) =>
                if is_prefix src dst then Throw EINVAL
                else
                  match v, lookup dst t with
                  | File _, Some (Dir _) => Throw EISDIR
                  | Dir _, Some (File _) => Throw ENOTDIR
                  | Dir _, Some (Dir (_ :: _)) => Throw ENOTEMPTY
                  | _, _ =>
                      match modify (parent src) (unbind_entry (basename src)) t with
                      | None => Throw ENOENT
                      | Some t1 =>
                          match modify (parent dst) (bind_entry (basename dst) v) t1 with
                          | None => Throw ENOENT
                          | Some t2 => Ok t2
                          end
                      end
                  end
            end
        end
  end.

#[export] Instance mem_fs : FileSystem node := {
  fs_readdir := readdir;
  fs_exists := exists_at;
  fs_mkdir_recursive := mkdir_p;
  fs_rename := rename
}.

End MemFS.

(* ===================================================================== *)
(** ** The same tree with calls that are made to fail *)
(* ===================================================================== *)

Module FaultyFS.
Import MemFS.

(** A disk is a tree together with the calls that fail whatever the tree
    is (the device is full, a permission is refused), and the error each
    of them throws. *)
Record fdisk : Type := mkF {
  tree : node;
  fault : fs_call -> option errno
}.

(** The outcome [r] of a call on the tree, unless the call is made to
    fail. *)
Definition forced (c : fs_call) (d : fdisk) (r : result node) : result fdisk :=
  match fault d c with
  | Some err => Throw err
  | None =>
      match r with
      | Ok t' => Ok (mkF t' (fault d))
      | Throw err => Throw err
      end
  end.

Definition freaddir (p : path) (d : fdisk) : result (list string) :=
  match fault d (call_readdir p) with
  | Some err => Throw err
  | None => readdir p (tree d)
  end.

#[export] Instance faulty_fs : FileSystem fdisk := {
  fs_readdir := freaddir;
  fs_exists := fun p d => exists_at p (tree d);
  fs_mkdir_recursive := fun p d => forced (call_mkdir p) d (mkdir_p p (tree d));
  fs_rename := fun src dst d => forced (call_rename src dst) d (rename src dst (tree d))
}.

(** The device is full: every [mkdir] fails with [ENOSPC]. *)
Definition device_full : fs_call -> option errno :=
  fun c => match c with call_mkdir _ => Some ENOSPC | _ => None end.

End FaultyFS.

Import MemFS FaultyFS.

(* ===================================================================== *)
(** ** Reference definitions *)
(* ===================================================================== *)

(** The name cut at its last dot: what stands before the dot and what
    stands after it; [None] for a name without a dot. *)
Fixpoint split_last_dot (cs : list ascii) : option (list ascii * list ascii) :=
  match cs with
  | [] => None
  | c :: cs' =>
      match split_last_dot cs' with
      | Some (a, b) => Some (c :: a, b)
      | None => if is_dot c then Some ([], cs') else None
      end
  end.

(** The category of a name in words: the text after the last dot, and the
    empty string when there is no dot or nothing before the last dot. *)
Definition after_last_dot (name : string) : string :=
  match split_last_dot (list_ascii_of_string name) with
  | None => ""
  | Some ([], _) => ""
  | Some (_ :: _, ext) => string_of_list_ascii ext
  end.

(** A character that is neither a slash nor a dot. *)
Definition plain (c : ascii) : Prop := is_slash c = false /\ is_dot c = false.

(** The value [preDotState] has after the characters [xs] were visited
    behind the first dot found. *)
Definition pre_dot (xs : list ascii) (d : Z) : Z :=
  fold_left (fun _ c => if is_dot c then 1%Z else (-1)%Z) xs d.

(** *** The listed directory, entry by entry *)

(** What is at [x/n] below the listed directory. *)
Definition inside (x n : string) (es : list (string * node)) : option node :=
  match assoc x es with
  | Some (Dir fs) => assoc n fs
  | _ => None
  end.

(** The entries once the folder [x] is known to exist. *)
Definition with_folder (x : string) (es : list (string * node)) : list (string * node) :=
  match assoc x es with
  | Some _ => es
  | None => bind_entry x (Dir []) es
  end.

(** [rename(2)] accepts to put [v] where [old] is. *)
Definition replaceable (v : node) (old : option node) : bool :=
  match v, old with
  | File _, Some (Dir _) => false
  | Dir _, Some (File _) => false
  | Dir _, Some (Dir (_ :: _)) => false
  | _, _ => true
  end.

(** What one call of the callback of [forEach] does to the entries [es]
    of the listed directory: nothing for a name without category (it is
    renamed onto itself), else the folder is added when it is missing and
    the entry is renamed into it when [rename] accepts. *)
Definition entries_step (file : string) (es : list (string * node)) : list (string * node) :=
  let extName := Path.extName file in
  if String.eqb extName "" then es
  else
    let es1 := with_folder extName es in
    match rename [file] [extName; file] (Dir es1) with
    | Ok (Dir es2) => es2
    | _ => es1
    end.

(** The entries of the listed directory after the callback ran on [files]. *)
Definition entries_run (files : list string) (es : list (string * node)) :=
  fold_left (fun es file => entries_step file es) files es.

(** [rename] will accept to move the entry [m] into its folder. *)
Definition movable (m : string) (es : list (string * node)) : bool :=
  match assoc m es with
  | None => false
  | Some v =>
      match assoc (extName m) es with
      | Some (File _) => false
      | Some (Dir fs) => replaceable v (assoc m fs)
      | None => replaceable v None
      end
  end.

(** The entry [n] is gone from the listing and [v] is in its folder. *)
Definition moved (n : string) (v : node) (es : list (string * node)) : Prop :=
  assoc n es = None /\ inside (extName n) n es = Some v.

(** The callback leaves the entries as they are. *)
Definition settled (m : string) (es : list (string * node)) : Prop :=
  extName m = "" \/ (assoc (extName m) es <> None /\ movable m es = false).

(** The node [v'] found where [v] was listed is [v] still: the same
    regular file, or a directory where there was one. *)
Definition kept (v v' : node) : Prop :=
  match v with
  | File data => v' = File data
  | Dir _ => exists fs, v' = Dir fs
  end.

(** The entry [n], which named [v] when the directory was listed, is where
    it was or in its folder. *)
Definition survives (n : string) (v : node) (es : list (string * node)) : Prop :=
  if String.eqb (extName n) "" then exists v', assoc n es = Some v' /\ kept v v'
  else assoc n es = Some v
       \/ (assoc n es = None /\ inside (extName n) n es = Some v).

(** What one call of the callback can have made of the entries [es] when
    calls may fail by force: nothing, the folder only, or all it does on
    the tree. *)
Definition step_outcome (n : string) (es es' : list (string * node)) : Prop :=
  es' = es
  \/ (extName n <> "" /\ es' = with_folder (extName n) es)
  \/ es' = entries_step n es.

(** The calls the callback may make for the entry [n] of the directory
    [fp]. *)
Definition call_of_entry (fp : path) (n : string) (c : fs_call) : Prop :=
  match c with
  | call_readdir _ => False
  | call_exists p =>
      p = if String.eqb (extName n) "" then fp else fp ++ [extName n]
  | call_mkdir p => extName n <> "" /\ p = fp ++ [extName n]
  | call_rename src dst =>
      src = fp ++ [n]
      /\ dst = if String.eqb (extName n) "" then fp ++ [n] else fp ++ [extName n; n]
  end.

(** Every path of the call is [fp] or below it. *)
Definition call_inside (fp : path) (c : fs_call) : Prop :=
  match c with
  | call_readdir p | call_exists p | call_mkdir p => is_prefix fp p = true
  | call_rename src dst => is_prefix fp src = true /\ is_prefix fp dst = true
  end.

(** *** Disks used as examples; the script lives in [/app] *)

Definition in_app (files : list (string * node)) : node :=
  Dir [("app", Dir [("main.js", File "script"); ("files", Dir files)])].

(** The end-to-end scenario of the specification. *)
Definition disk_scenario : node :=
  in_app [("a.txt", File "A"); ("b.jpg", File "B"); ("c.txt", File "C");
          ("notes", File "N")].

(** [b.txt] is listed and [txt/b.txt] is there already. *)
Definition disk_collision : node :=
  in_app [("b.txt", File "new"); ("txt", Dir [("b.txt", File "old")])].

Definition disk_case : node :=
  in_app [("a.TXT", File "1"); ("b.txt", File "2"); ("c.Txt", File "3")].

Definition disk_readme : node := in_app [("README", File "read me")].

(** Two directories are listed, one of them with a dot in its name. *)
Definition disk_dirs : node :=
  in_app [("images", Dir [("logo.png", File "L")]);
          ("photos.old", Dir [("p1.jpg", File "P")])].

(** [/app] has no [files]. *)
Definition disk_missing : node := Dir [("app", Dir [("main.js", File "script")])].

(** The device is full; the folder [jpg] exists, [txt] does not. *)
Definition disk_full : fdisk :=
  mkF (in_app [("a.txt", File "A"); ("b.jpg", File "B"); ("jpg", Dir [])]) device_full.

(** *** The sentences of the specification that the script does not
    follow, as they are written *)

(** A file of the same name at the destination is not replaced, the
    listed file stays, and a failure is written to the console. *)
Definition collision_is_refused (dirname : path) (t : node) (n : string) : Prop :=
  let fullPath := path_join dirname "files" in
  let src := path_join fullPath n in
  let dst := path_join (path_join fullPath (extName n)) n in
  let w' := snd (run dirname t) in
  lookup dst (disk w') = lookup dst t
  /\ lookup src (disk w') = lookup src t
  /\ exists err, In (error_line err) (console w').

(** The listed names all have the category [cat] and are in the folder
    [cat] after one run. *)
Definition grouped_under (dirname : path) (t : node) (names : list string)
  (cat : string) : Prop :=
  let fullPath := path_join dirname "files" in
  let w' := snd (run dirname t) in
  forall n, In n names ->
    extName n = cat
    /\ lookup (fullPath ++ [cat; n]) (disk w') = lookup (fullPath ++ [n]) t.

(** A listed directory is where it was, as it was, after the run. *)
Definition directory_is_skipped (dirname : path) (t : node) (n : string) : Prop :=
  let fullPath := path_join dirname "files" in
  let w' := snd (run dirname t) in
  lookup (fullPath ++ [n]) (disk w') = lookup (fullPath ++ [n]) t.

(** The console of a second run has no [File moved successfully!]. *)
Definition second_run_reports_no_move (dirname : path) (t : node) : Prop :=
  let w1 := snd (run dirname t) in
  let w2 := snd (run dirname (disk w1)) in
  ~ In File_moved_successfully (console w2).

(** The error of a directory that cannot be listed reaches the caller. *)
Definition failure_reaches_caller (dirname : path) (t : node) : Prop :=
  forall err,
    readdir (path_join dirname "files") t = Throw err ->
    fst (run dirname t) = Throw err.

(** *** The layout the script produces on a directory of regular files *)

(** The strings of [l], each once, in the order they first appear. *)
Fixpoint distinct (l : list string) : list string :=
  match l with
  | [] => []
  | x :: l' => x :: filter (fun y => negb (String.eqb x y)) (distinct l')
  end.

Definition has_ext (e : string * node) : bool :=
  negb (String.eqb (extName (fst e)) "").

Definition ext_is (x : string) (e : string * node) : bool :=
  String.eqb (extName (fst e)) x.

(** The entries without extension, in the order of the listing. *)
Definition unsorted (es : list (string * node)) : list (string * node) :=
  filter (fun e => negb (has_ext e)) es.

(** The extensions of the listed names. *)
Definition extensions (es : list (string * node)) : list string :=
  distinct (map (fun e => extName (fst e)) (filter has_ext es)).

(** One folder for each extension, holding the entries of that extension
    in the order of the listing. *)
Definition folders (es : list (string * node)) : list (string * node) :=
  map (fun x => (x, Dir (filter (ext_is x) es))) (extensions es).

(** Grouping by extension: the entries without extension stay, then come
    the folders. *)
Definition grouped (es : list (string * node)) : list (string * node) :=
  unsorted es ++ folders es.

(** Every entry is a regular file. *)
Definition regular_files (es : list (string * node)) : Prop :=
  Forall (fun e => exists data, snd e = File data) es.

(** No listed name is the extension of a listed name. *)
Definition no_name_is_extension (es : list (string * node)) : Prop :=
  forall n m, In n (map fst es) -> In m (map fst es) -> n <> extName m.

(** The three conditions as tests. *)
Fixpoint distinct_names (l : list string) : bool :=
  match l with
  | [] => true
  | x :: l' => negb (existsb (String.eqb x) l') && distinct_names l'
  end.

Definition regular_filesb (es : list (string * node)) : bool :=
  forallb (fun e => match snd e with File _ => true | Dir _ => false end) es.

Definition no_name_is_extensionb (es : list (string * node)) : bool :=
  forallb (fun n => forallb (fun m => negb (String.eqb n (extName m))) (map fst es))
    (map fst es).

(** Neither path is the other or an ancestor of the other. *)
Definition apart (p q : path) : Prop :=
  is_prefix p q = false /\ is_prefix q p = false.

(** A line a callback can write: anything but [Error reading directory:]. *)
Definition entry_line (l : console_line) : Prop :=
  match l with
  | Error_reading_directory _ => False
  | _ => True
  end.

(** The line that ends the handling of an entry: moved, or the error of
    the rename. *)
Definition is_outcome (l : console_line) : bool :=
  match l with
  | File_moved_successfully | error_line _ => true
  | _ => false
  end.

Definition is_rename (c : fs_call) : bool :=
  match c with
  | call_rename _ _ => true
  | _ => false
  end.

(** The rename the callback attempts for the entry [n]. *)
Definition rename_of (fp : path) (n : string) : fs_call :=
  call_rename (path_join fp n) (path_join (path_join fp (extName n)) n).

(** Every rename is refused. *)
Definition renames_refused : fs_call -> option errno :=
  fun c => match c with call_rename _ _ => Some EBUSY | _ => None end.

(** [disk_collision] when every rename is refused. *)
Definition disk_refused : fdisk := mkF disk_collision renames_refused.

(** The device is full; [txt] exists, [jpg] and [png] do not. *)
Definition disk_full_later : fdisk :=
  mkF (in_app [("a.txt", File "A"); ("b.jpg", File "B"); ("c.png", File "C");
               ("txt", Dir [])]) device_full.

(** Closes a goal about the callback by what is known of its rename step. *)
Ltac use_rename Hren :=
  match goal with
  | |- context [try_rename _ _ _ ?w0] =>
      let A := fresh in let B := fresh in
      destruct (Hren w0) as [A B]; split; [exact A | rewrite B; reflexivity]
  end.

(* ===================================================================== *)
(** ** [path.extname] on names without a slash *)
(* ===================================================================== *)

Section Extname.

Lemma ext_loop_plain_end_set xs ys st :
  Forall plain xs -> startDot st = (-1)%Z -> endIdx st <> (-1)%Z ->
  ext_loop (xs ++ ys) st = ext_loop ys st.
Proof.
  induction 1 as [|c xs [Hs Hd] _ IH]; intros Hsd Hen; simpl; auto.
  unfold ext_iter. rewrite Hs, Hd.
  destruct (Z.eqb_spec (endIdx st) (-1)); [contradiction|].
  rewrite Hsd. simpl. apply IH; assumption.
Qed.

Lemma ext_loop_plain_init c xs ys :
  Forall plain (c :: xs) ->
  ext_loop ((c :: xs) ++ ys) ext_init
  = ext_loop ys (mkExt (-1) 0 (Z.of_nat (length ((c :: xs) ++ ys))) false 0).
Proof.
  intros H. inversion H as [|? ? [Hs Hd] Hxs]; subst.
  simpl. unfold ext_iter. rewrite Hs, Hd. simpl.
  rewrite ext_loop_plain_end_set; simpl; auto; try lia.
  do 2 f_equal. lia.
Qed.

Lemma ext_loop_first_dot ys st :
  startDot st = (-1)%Z ->
  ext_loop ("."%char :: ys) st
  = ext_loop ys (mkExt (Z.of_nat (length ys)) (startPart st)
                   (if (endIdx st =? -1)%Z then Z.of_nat (length ys) + 1 else endIdx st)
                   (if (endIdx st =? -1)%Z then false else matchedSlash st)
                   (preDotState st)).
Proof.
  intros Hsd. simpl. unfold ext_iter. simpl.
  destruct (endIdx st =? -1)%Z; simpl; rewrite Hsd; reflexivity.
Qed.

Lemma ext_loop_before_dot xs : forall st,
  Forall (fun c => is_slash c = false) xs ->
  startDot st <> (-1)%Z -> endIdx st <> (-1)%Z ->
  ext_loop xs st
  = mkExt (startDot st) (startPart st) (endIdx st) (matchedSlash st)
          (pre_dot xs (preDotState st)).
Proof.
  induction xs as [|c xs IH]; intros st Hall Hsd Hen.
  - destruct st; reflexivity.
  - inversion Hall as [|? ? Hs Hxs]; subst.
    simpl. unfold ext_iter. rewrite Hs.
    destruct (Z.eqb_spec (endIdx st) (-1)); [contradiction|].
    destruct (Z.eqb_spec (startDot st) (-1)); [contradiction|].
    destruct (is_dot c); simpl.
    + destruct (Z.eqb_spec (preDotState st) 1) as [E|E]; simpl.
      * rewrite IH by assumption. rewrite E. reflexivity.
      * rewrite IH by (simpl; assumption). reflexivity.
    + rewrite IH by (simpl; assumption). reflexivity.
Qed.

Lemma pre_dot_rev pre d :
  pre_dot (rev pre) d
  = match pre with
    | [] => d
    | c :: _ => if is_dot c then 1%Z else (-1)%Z
    end.
Proof.
  destruct pre as [|c pre]; [reflexivity|].
  simpl. unfold pre_dot. rewrite fold_left_app. reflexivity.
Qed.

Lemma slice_suffix (pre suf : list ascii) :
  slice (pre ++ suf) (Z.of_nat (length pre)) (Z.of_nat (length (pre ++ suf))) = suf.
Proof.
  unfold slice. rewrite !Nat2Z.id, length_app.
  replace (length pre + length suf - length pre) with (length suf) by lia.
  rewrite skipn_app, skipn_all, Nat.sub_diag. simpl. apply firstn_all.
Qed.

(** The loop on a name without slashes that has a dot. *)
Lemma ext_loop_dotted pre suf :
  Forall (fun c => is_slash c = false) pre -> Forall plain suf ->
  ext_loop (rev (pre ++ "."%char :: suf)) ext_init
  = mkExt (Z.of_nat (length pre)) 0 (Z.of_nat (length (pre ++ "."%char :: suf)))
          false (pre_dot (rev pre) 0).
Proof.
  intros Hpre Hsuf.
  assert (Hrev : Forall (fun c => is_slash c = false) (rev pre))
    by (apply Forall_rev; assumption).
  rewrite rev_app_distr. simpl rev. rewrite <- app_assoc. simpl app.
  destruct (rev suf) as [|c xs] eqn:E.
  - simpl app. rewrite ext_loop_first_dot by reflexivity. simpl.
    rewrite ext_loop_before_dot; simpl; auto; try lia.
    assert (suf = []) by (apply (f_equal (@rev ascii)) in E; rewrite rev_involutive in E; exact E).
    subst suf. rewrite length_rev, length_app. simpl. f_equal; lia.
  - assert (Hp : Forall plain (c :: xs)) by (rewrite <- E; apply Forall_rev; assumption).
    rewrite ext_loop_plain_init by assumption.
    rewrite ext_loop_first_dot by reflexivity.
    cbn [startDot startPart endIdx matchedSlash preDotState].
    destruct (Z.eqb_spec (Z.of_nat (length ((c :: xs) ++ "."%char :: rev pre))) (-1)); [lia|].
    rewrite ext_loop_before_dot;
      cbn [startDot startPart endIdx matchedSlash preDotState]; auto; try lia.
    rewrite length_rev. f_equal.
    rewrite !length_app. cbn [length]. rewrite length_rev.
    assert (length suf = S (length xs))
      by (rewrite <- (length_rev suf), E; reflexivity).
    lia.
Qed.

Lemma extname_chars_dotted pre suf :
  Forall (fun c => is_slash c = false) pre -> Forall plain suf ->
  slice1 (extname_chars (pre ++ "."%char :: suf))
  = match pre with [] => [] | _ :: _ => suf end.
Proof.
  intros Hpre Hsuf. unfold extname_chars.
  rewrite ext_loop_dotted by assumption. cbn [startDot endIdx preDotState startPart].
  rewrite pre_dot_rev.
  destruct pre as [|c pre]; [reflexivity|].
  pose proof (slice_suffix (c :: pre) ("."%char :: suf)) as Hslice.
  assert (Hlen : Z.of_nat (length ((c :: pre) ++ "."%char :: suf))
                 = (Z.of_nat (length (c :: pre)) + 1 + Z.of_nat (length suf))%Z)
    by (rewrite length_app; cbn [length]; lia).
  assert (Ha : (0 < Z.of_nat (length (c :: pre)))%Z) by (cbn [length]; lia).
  revert Hslice Hlen Ha.
  generalize (Z.of_nat (length ((c :: pre) ++ "."%char :: suf))) as b.
  generalize (Z.of_nat (length (c :: pre))) as a.
  intros a b Hslice Hlen Ha.
  match goal with
  | |- slice1 (if ?cond then _ else _) = _ => destruct cond eqn:Hc
  end.
  - rewrite !orb_true_iff, !andb_true_iff, !Z.eqb_eq in Hc.
    destruct Hc as [[[Hc|Hc]|Hc]|[[_ Hc] _]]; try lia.
    + destruct (is_dot c); discriminate.
    + destruct suf; [reflexivity | cbn [length] in Hlen; lia].
  - rewrite Hslice. reflexivity.
Qed.

Lemma ext_loop_undotted xs : forall st,
  Forall plain xs -> startDot st = (-1)%Z ->
  startDot (ext_loop xs st) = (-1)%Z.
Proof.
  induction xs as [|c xs IH]; intros st Hall Hsd; [assumption|].
  inversion Hall as [|? ? [Hs Hd] Hxs]; subst.
  simpl. unfold ext_iter. rewrite Hs, Hd.
  destruct (endIdx st =? -1)%Z; simpl; rewrite Hsd; simpl; apply IH; auto.
Qed.

Lemma extname_chars_undotted cs :
  Forall plain cs -> extname_chars cs = [].
Proof.
  intros H. unfold extname_chars.
  rewrite ext_loop_undotted; [reflexivity | apply Forall_rev; assumption | reflexivity].
Qed.

End Extname.

(* ===================================================================== *)
(** ** Names, categories and joined paths *)
(* ===================================================================== *)

Section Names.

Lemma lacks_Forall c s :
  lacks c s <-> Forall (fun x => Ascii.eqb x c = false) (list_ascii_of_string s).
Proof.
  unfold lacks. rewrite Forall_forall. split.
  - intros H x Hx. destruct (Ascii.eqb_spec x c); [subst; contradiction | reflexivity].
  - intros H Hin. specialize (H c Hin). rewrite Ascii.eqb_refl in H. discriminate.
Qed.

Lemma lacksb_lacks c s : lacksb c s = true <-> lacks c s.
Proof.
  unfold lacksb, lacks. rewrite negb_true_iff. split.
  - intros H Hin.
    assert (existsb (Ascii.eqb c) (list_ascii_of_string s) = true)
      by (apply existsb_exists; exists c; split; [assumption | apply Ascii.eqb_refl]).
    congruence.
  - intros H. destruct (existsb _ _) eqn:E; [|reflexivity].
    apply existsb_exists in E. destruct E as [x [Hx Heq]].
    apply Ascii.eqb_eq in Heq. subst x. contradiction.
Qed.

Lemma split_last_dot_Some cs : forall a b,
  split_last_dot cs = Some (a, b) ->
  cs = a ++ "."%char :: b /\ Forall (fun c => is_dot c = false) b.
Proof.
  induction cs as [|c cs IH]; intros a b H; simpl in H; [discriminate|].
  destruct (split_last_dot cs) as [[a' b']|] eqn:E.
  - inversion H; subst. destruct (IH a' b eq_refl) as [-> Hb]. split; auto.
  - destruct (is_dot c) eqn:Hd; [|discriminate].
    inversion H; subst. apply Ascii.eqb_eq in Hd. subst c. split; [reflexivity|].
    clear IH H. revert E. induction b as [|x b IHb]; simpl; intros E; [constructor|].
    destruct (split_last_dot b) as [[? ?]|]; [discriminate|].
    destruct (is_dot x) eqn:Hx; [discriminate|]. constructor; auto.
Qed.

Lemma split_last_dot_None cs :
  split_last_dot cs = None -> Forall (fun c => is_dot c = false) cs.
Proof.
  induction cs as [|x b IHb]; simpl; intros E; [constructor|].
  destruct (split_last_dot b) as [[? ?]|]; [discriminate|].
  destruct (is_dot x) eqn:Hx; [discriminate|]. constructor; auto.
Qed.

Lemma Forall_plain cs :
  Forall (fun c => is_slash c = false) cs -> Forall (fun c => is_dot c = false) cs ->
  Forall plain cs.
Proof.
  intros H1 H2. rewrite Forall_forall in *. intros x Hx. split; auto.
Qed.

(** [extName] is the reference definition on every name without a slash. *)
Lemma extName_after_last_dot n :
  lacks "/"%char n -> extName n = after_last_dot n.
Proof.
  intros H. apply lacks_Forall in H. unfold extName, after_last_dot.
  destruct (split_last_dot (list_ascii_of_string n)) as [[a b]|] eqn:E.
  - destruct (split_last_dot_Some _ _ _ E) as [Heq Hb].
    rewrite Heq in H |- *.
    apply Forall_app in H. destruct H as [Ha Hsb].
    inversion Hsb; subst.
    rewrite extname_chars_dotted; auto using Forall_plain.
    destruct a; reflexivity.
  - apply split_last_dot_None in E.
    rewrite extname_chars_undotted; auto using Forall_plain.
Qed.

Lemma lacks_string_of_list c cs :
  Forall (fun x => Ascii.eqb x c = false) cs -> lacks c (string_of_list_ascii cs).
Proof.
  intros H. apply lacks_Forall. rewrite list_ascii_of_string_of_list_ascii. exact H.
Qed.

Lemma lacks_empty c : lacks c "".
Proof. intros []. Qed.

(** A category has neither a dot nor a slash. *)
Lemma extName_lacks n :
  lacks "/"%char n -> lacks "."%char (extName n) /\ lacks "/"%char (extName n).
Proof.
  intros H. rewrite extName_after_last_dot by assumption.
  apply lacks_Forall in H. unfold after_last_dot.
  destruct (split_last_dot (list_ascii_of_string n)) as [[a b]|] eqn:E;
    [|split; apply lacks_empty].
  destruct a; [split; apply lacks_empty|].
  destruct (split_last_dot_Some _ _ _ E) as [Heq Hb].
  rewrite Heq in H. apply Forall_app in H. destruct H as [_ H].
  inversion H; subst. split; apply lacks_string_of_list; assumption.
Qed.

(** A name without a dot has the empty category. *)
Lemma extName_undotted n :
  lacks "/"%char n -> lacks "."%char n -> extName n = "".
Proof.
  intros Hs Hd. apply lacks_Forall in Hs. apply lacks_Forall in Hd.
  unfold extName. rewrite extname_chars_undotted; auto using Forall_plain.
Qed.

Lemma extName_extName n : lacks "/"%char n -> extName (extName n) = "".
Proof.
  intros H. destruct (extName_lacks n H). apply extName_undotted; assumption.
Qed.

Lemma valid_name_lacks n : valid_name n -> lacks "/"%char n.
Proof.
  unfold valid_name, valid_nameb. rewrite !andb_true_iff.
  intros [_ H]. apply lacksb_lacks. exact H.
Qed.

Lemma split_slash_aux_plain s : forall cur,
  Forall (fun c => is_slash c = false) s -> split_slash_aux cur s = [rev cur ++ s].
Proof.
  induction s as [|c s IH]; intros cur H; simpl.
  - rewrite app_nil_r. reflexivity.
  - inversion H as [|? ? Hc Hs]; subst. rewrite Hc, IH by assumption.
    simpl. rewrite <- app_assoc. reflexivity.
Qed.

Lemma split_slash_lacks s : lacks "/"%char s -> split_slash s = [s].
Proof.
  intros H. apply lacks_Forall in H. unfold split_slash.
  rewrite split_slash_aux_plain by assumption. simpl.
  rewrite string_of_list_ascii_of_string. reflexivity.
Qed.

Lemma path_join_segment p s : lacks "/"%char s -> path_join p s = push_segment p s.
Proof.
  intros H. unfold path_join. rewrite split_slash_lacks by assumption. reflexivity.
Qed.

(** Joining the name of an entry appends it. *)
Lemma path_join_name p n : valid_name n -> path_join p n = p ++ [n].
Proof.
  intros H. rewrite path_join_segment by (apply valid_name_lacks; assumption).
  unfold valid_name, valid_nameb in H. rewrite !andb_true_iff, !negb_true_iff in H.
  destruct H as [[[H1 H2] H3] _]. unfold push_segment. rewrite H1, H2, H3. reflexivity.
Qed.

Lemma lacks_dot_neq s : lacks "."%char s -> s <> "." /\ s <> "..".
Proof.
  intros H. split; intros ->; apply H; simpl; auto.
Qed.

(** Joining a category appends it, and the empty category changes nothing. *)
Lemma path_join_category p n :
  lacks "/"%char n ->
  path_join p (extName n) = if String.eqb (extName n) "" then p else p ++ [extName n].
Proof.
  intros H. destruct (extName_lacks n H) as [Hd Hs].
  rewrite path_join_segment by assumption. unfold push_segment.
  destruct (String.eqb_spec (extName n) ""); [reflexivity|].
  destruct (lacks_dot_neq _ Hd) as [H1 H2].
  apply String.eqb_neq in H1, H2. rewrite H1, H2. reflexivity.
Qed.

(** A name with a category is not itself a category. *)
Lemma extName_neq_category n m :
  lacks "/"%char n -> lacks "/"%char m -> extName n <> "" -> n <> extName m.
Proof.
  intros Hn Hm Hne ->. apply Hne. apply extName_extName. assumption.
Qed.

Lemma list_ascii_of_string_app a b :
  list_ascii_of_string (a ++ b)%string = list_ascii_of_string a ++ list_ascii_of_string b.
Proof. induction a as [|c a IH]; simpl; [reflexivity | rewrite IH; reflexivity]. Qed.

Lemma lacks_decide c s : lacksb c s = true -> lacks c s.
Proof. apply lacksb_lacks. Qed.

End Names.

(* ===================================================================== *)
(** ** The directory tree: entries and subtrees *)
(* ===================================================================== *)

Section Tree.

Lemma assoc_bind_eq k v es : assoc k (bind_entry k v es) = Some v.
Proof.
  induction es as [|[k' v'] es IH]; simpl.
  - rewrite String.eqb_refl. reflexivity.
  - destruct (String.eqb k k') eqn:E; simpl.
    + rewrite String.eqb_refl. reflexivity.
    + rewrite E. exact IH.
Qed.

Lemma assoc_bind_neq k k' v es :
  k <> k' -> assoc k' (bind_entry k v es) = assoc k' es.
Proof.
  intros Hne. induction es as [|[k0 v0] es IH]; simpl.
  - destruct (String.eqb_spec k' k); [congruence | reflexivity].
  - destruct (String.eqb_spec k k0); simpl.
    + subst k0. destruct (String.eqb_spec k' k); [congruence | reflexivity].
    + rewrite IH. reflexivity.
Qed.

Lemma assoc_unbind_eq k es : assoc k (unbind_entry k es) = None.
Proof.
  induction es as [|[k0 v0] es IH]; simpl; [reflexivity|].
  destruct (String.eqb k k0) eqn:E; simpl; [exact IH|].
  rewrite E. exact IH.
Qed.

Lemma assoc_unbind_neq k k' es :
  k <> k' -> assoc k' (unbind_entry k es) = assoc k' es.
Proof.
  intros Hne. induction es as [|[k0 v0] es IH]; simpl; [reflexivity|].
  destruct (String.eqb_spec k k0); simpl.
  - subst k0. destruct (String.eqb_spec k' k); [congruence | exact IH].
  - rewrite IH. reflexivity.
Qed.

Lemma assoc_In k es : In k (map fst es) <-> assoc k es <> None.
Proof.
  induction es as [|[k0 v0] es IH]; simpl.
  - split; [contradiction | congruence].
  - destruct (String.eqb_spec k k0).
    + subst. split; [discriminate | auto].
    + rewrite <- IH. split; [intros [?|?]; [congruence | assumption] | auto].
Qed.

Lemma lookup_app p q t :
  lookup (p ++ q) t = match lookup p t with Some m => lookup q m | None => None end.
Proof.
  revert t. induction p as [|c p IH]; intros t; simpl; [reflexivity|].
  destruct t as [|es]; [reflexivity|].
  destruct (assoc c es); [apply IH | reflexivity].
Qed.

Lemma path_eqb_refl p : path_eqb p p = true.
Proof. induction p; simpl; [reflexivity | rewrite String.eqb_refl; assumption]. Qed.

Lemma path_eqb_app p a b : path_eqb (p ++ a) (p ++ b) = path_eqb a b.
Proof. induction p; simpl; [reflexivity | rewrite String.eqb_refl; assumption]. Qed.

Lemma is_prefix_app p a b : is_prefix (p ++ a) (p ++ b) = is_prefix a b.
Proof. induction p; simpl; [reflexivity | rewrite String.eqb_refl; assumption]. Qed.

Lemma parent_app p b : b <> [] -> parent (p ++ b) = p ++ parent b.
Proof. intros H. unfold parent. apply removelast_app. assumption. Qed.

Lemma basename_app p b : b <> [] -> basename (p ++ b) = basename b.
Proof.
  intros H. unfold basename. induction p as [|c p IH]; [reflexivity|].
  simpl. destruct (p ++ b) eqn:E; [|exact IH].
  apply app_eq_nil in E. destruct E. contradiction.
Qed.

(** Rewriting a directory below [fp] is rewriting it in the subtree at
    [fp]. *)
Lemma modify_focus fp s f : forall t sub,
  lookup fp t = Some sub ->
  match modify s f sub with
  | Some sub' => exists t', modify (fp ++ s) f t = Some t' /\ lookup fp t' = Some sub'
  | None => modify (fp ++ s) f t = None
  end.
Proof.
  induction fp as [|c fp IH]; intros t sub H; simpl in H.
  - inversion H; subst. simpl. destruct (modify s f sub); eauto.
  - destruct t as [|es]; [discriminate|].
    destruct (assoc c es) as [m|] eqn:E; [|discriminate].
    specialize (IH m sub H). simpl. rewrite E.
    destruct (modify s f sub) as [sub'|].
    + destruct IH as [m' [Hm Hl]]. rewrite Hm.
      eexists; split; [reflexivity|]. simpl. rewrite assoc_bind_eq. exact Hl.
    + rewrite IH. reflexivity.
Qed.

Lemma mkdir_p_focus fp r : forall t sub sub',
  lookup fp t = Some sub -> mkdir_p r sub = Ok sub' ->
  exists t', mkdir_p (fp ++ r) t = Ok t' /\ lookup fp t' = Some sub'.
Proof.
  induction fp as [|c fp IH]; intros t sub sub' H Hm; simpl in H.
  - inversion H; subst. eauto.
  - destruct t as [|es]; [discriminate|].
    destruct (assoc c es) as [m|] eqn:E; [|discriminate].
    destruct (IH m sub sub' H Hm) as [m' [Hm' Hl]].
    simpl. rewrite E, Hm'.
    eexists; split; [reflexivity|]. simpl. rewrite assoc_bind_eq. exact Hl.
Qed.

(** Renaming below [fp] is renaming in the subtree at [fp]. *)
Lemma rename_focus fp a b t sub :
  lookup fp t = Some sub -> a <> [] -> b <> [] ->
  match rename a b sub with
  | Ok sub' => exists t', rename (fp ++ a) (fp ++ b) t = Ok t' /\ lookup fp t' = Some sub'
  | Throw err => rename (fp ++ a) (fp ++ b) t = Throw err
  end.
Proof.
  intros H Ha Hb. unfold rename.
  rewrite (lookup_app fp a), H.
  destruct (lookup a sub) as [v|]; [|reflexivity].
  rewrite path_eqb_app.
  destruct (path_eqb a b); [eauto|].
  destruct a as [|a0 a']; [contradiction|]. destruct b as [|b0 b']; [contradiction|].
  destruct (fp ++ a0 :: a') eqn:Ea; [destruct fp; discriminate|].
  destruct (fp ++ b0 :: b') eqn:Eb; [destruct fp; discriminate|].
  rewrite <- Ea, <- Eb.
  rewrite parent_app, (lookup_app fp (parent (b0 :: b'))), H by discriminate.
  destruct (lookup (parent (b0 :: b')) sub) as [[|ds]|]; try reflexivity.
  rewrite is_prefix_app.
  destruct (is_prefix (a0 :: a') (b0 :: b')); [reflexivity|].
  rewrite (lookup_app fp (b0 :: b')), H.
  rewrite !basename_app, parent_app by discriminate.
  pose proof (modify_focus fp (parent (a0 :: a')) (unbind_entry (basename (a0 :: a'))) t sub H) as H1.
  assert (Hmove :
    match
      match modify (parent (a0 :: a')) (unbind_entry (basename (a0 :: a'))) sub with
      | Some t1 =>
          match modify (parent (b0 :: b')) (bind_entry (basename (b0 :: b')) v) t1 with
          | Some t2 => Ok t2
          | None => Throw ENOENT
          end
      | None => Throw ENOENT
      end
    with
    | Ok sub' =>
        exists t',
          match modify (fp ++ parent (a0 :: a')) (unbind_entry (basename (a0 :: a'))) t with
          | Some t1 =>
              match modify (fp ++ parent (b0 :: b')) (bind_entry (basename (b0 :: b')) v) t1 with
              | Some t2 => Ok t2
              | None => Throw ENOENT
              end
          | None => Throw ENOENT
          end = Ok t' /\ lookup fp t' = Some sub'
    | Throw err =>
        match modify (fp ++ parent (a0 :: a')) (unbind_entry (basename (a0 :: a'))) t with
        | Some t1 =>
            match modify (fp ++ parent (b0 :: b')) (bind_entry (basename (b0 :: b')) v) t1 with
            | Some t2 => Ok t2
            | None => Throw ENOENT
            end
        | None => Throw ENOENT
        end = Throw err
    end).
  { destruct (modify (parent (a0 :: a')) _ sub) as [s1|].
    - destruct H1 as [t1 [Ht1 Hl1]]. rewrite Ht1.
      pose proof (modify_focus fp (parent (b0 :: b')) (bind_entry (basename (b0 :: b')) v) t1 s1 Hl1) as H2.
      destruct (modify (parent (b0 :: b')) _ s1) as [s2|].
      + destruct H2 as [t2 [Ht2 Hl2]]. rewrite Ht2. eauto.
      + rewrite H2. reflexivity.
    - rewrite H1. reflexivity. }
  destruct v as [d|vs]; destruct (lookup (b0 :: b') sub) as [[d'|[|e es']]|];
    try reflexivity; exact Hmove.
Qed.

End Tree.

(* ===================================================================== *)
(** ** The callback, for any provider and on the tree *)
(* ===================================================================== *)

Section Run.
Context {FS : Type} `{FileSystem FS}.

Lemma try_rename_run fp x n (w : world FS) :
  try_rename fp x n w
  = let src := path_join fp n in
    let dst := path_join (path_join fp x) n in
    match fs_rename src dst (disk w) with
    | Ok d => (Ok tt, mkWorld d (console w ++ [File_moved_successfully])
                        (calls w ++ [call_rename src dst]))
    | Throw err => (Ok tt, mkWorld (disk w) (console w ++ [error_line err])
                             (calls w ++ [call_rename src dst]))
    end.
Proof.
  unfold try_rename, try_catch, bind, renameSync, update_disk. cbv zeta.
  destruct (fs_rename _ _ (disk w)); reflexivity.
Qed.

Lemma each_file_run fp n i (w : world FS) :
  each_file fp n i w
  = let px := path_join fp (extName n) in
    if fs_exists px (disk w)
    then try_rename fp (extName n) n
           (mkWorld (disk w) (console w ++ [folder_exists]) (calls w ++ [call_exists px]))
    else
      match fs_mkdir_recursive px (disk w) with
      | Ok d => try_rename fp (extName n) n
                  (mkWorld d (console w) ((calls w ++ [call_exists px]) ++ [call_mkdir px]))
      | Throw err => (Throw err, mkWorld (disk w) (console w)
                                   ((calls w ++ [call_exists px]) ++ [call_mkdir px]))
      end.
Proof.
  unfold each_file, bind, existsSync, mkdirSync, update_disk, console_log, console_write,
    record_call. cbv zeta. cbn [disk console calls].
  destruct (fs_exists _ (disk w)); [reflexivity|].
  cbn [disk console calls].
  destruct (fs_mkdir_recursive _ (disk w)); reflexivity.
Qed.
(** The run once the directory is listed. *)
Lemma run_listing dirname (d : FS) l :
  fs_readdir (path_join dirname "files") d = Ok l ->
  run dirname d
  = match forEach_from 0 l (each_file (path_join dirname "files"))
            (mkWorld d [] [call_readdir (path_join dirname "files")]) with
    | (Ok a, w') => (Ok a, w')
    | (Throw err, w') =>
        (Ok tt, mkWorld (disk w') (console w' ++ [Error_reading_directory err]) (calls w'))
    end.
Proof.
  intros Hl. unfold run, organize, try_catch, organize_body, bind, readdirSync, forEach.
  cbn [disk]. rewrite Hl. unfold record_call. cbn [disk console calls app].
  destruct (forEach_from 0 l _ _) as [[a|err] w']; reflexivity.
Qed.

(** The run when the directory cannot be listed. *)
Lemma run_unlistable dirname (d : FS) err :
  fs_readdir (path_join dirname "files") d = Throw err ->
  run dirname d
  = (Ok tt,
     mkWorld d [Error_reading_directory err]
       [call_readdir (path_join dirname "files")]).
Proof.
  intros Herr. unfold run, organize, try_catch, organize_body, bind, readdirSync.
  cbn [disk]. rewrite Herr. reflexivity.
Qed.

(** [try_rename] never throws, and a rename that throws leaves the disk
    as it was. *)
Lemma try_rename_never_throws fp x n (w : world FS) :
  fst (try_rename fp x n w) = Ok tt
  /\ (forall err,
        fs_rename (path_join fp n) (path_join (path_join fp x) n) (disk w) = Throw err ->
        disk (snd (try_rename fp x n w)) = disk w).
Proof.
  rewrite try_rename_run. cbv zeta.
  destruct (fs_rename _ _ (disk w)); split; try reflexivity; intros; discriminate.
Qed.

End Run.

Section TreeRun.

Lemma modify_Dir p f : forall t t', modify p f t = Some t' -> exists es, t' = Dir es.
Proof.
  intros t t' H. destruct t as [|es]; [destruct p; discriminate|].
  destruct p as [|c p]; simpl in H.
  - inversion H. eauto.
  - destruct (assoc c es); [|discriminate]. destruct (modify p f n); inversion H; eauto.
Qed.

Lemma rename_Dir a b es t' : rename a b (Dir es) = Ok t' -> exists es', t' = Dir es'.
Proof.
  unfold rename. intros H.
  destruct (lookup a (Dir es)) as [v|]; [|discriminate].
  destruct (path_eqb a b); [inversion H; eauto|].
  destruct a; [discriminate|]. destruct b; [discriminate|].
  destruct (lookup (parent (s0 :: b)) (Dir es)) as [[|?]|]; try discriminate.
  destruct (is_prefix _ _); [discriminate|].
  assert (Hm : match modify (parent (s :: a)) (unbind_entry (basename (s :: a))) (Dir es) with
    | Some t1 =>
        match modify (parent (s0 :: b)) (bind_entry (basename (s0 :: b)) v) t1 with
        | Some t2 => Ok t2
        | None => Throw ENOENT
        end
    | None => Throw ENOENT
    end = Ok t' -> exists es', t' = Dir es').
  { destruct (modify (parent (s :: a)) _ _); [|discriminate].
    destruct (modify (parent (s0 :: b)) _ _) eqn:E; [|discriminate].
    intros H'. inversion H'; subst. eapply modify_Dir; eauto. }
  destruct v; destruct (lookup (s0 :: b) (Dir es)) as [[|[|? ?]]|]; try discriminate; auto.
Qed.

Lemma try_rename_mem fp x n (w : world node) es :
  path_join fp n = fp ++ [n] -> path_join (path_join fp x) n = fp ++ [x; n] ->
  lookup fp (disk w) = Some (Dir es) ->
  exists w', try_rename fp x n w = (Ok tt, w')
    /\ lookup fp (disk w')
       = Some (Dir (match rename [n] [x; n] (Dir es) with Ok (Dir es2) => es2 | _ => es end)).
Proof.
  intros Hsrc Hdst Hfp. rewrite try_rename_run. cbv zeta. rewrite Hsrc, Hdst.
  change (@fs_rename node mem_fs) with rename.
  pose proof (rename_focus fp [n] [x; n] (disk w) (Dir es) Hfp) as Hr.
  destruct (rename [n] [x; n] (Dir es)) as [sub'|err] eqn:E.
  - destruct Hr as [t' [Ht' Hl]]; try discriminate. rewrite Ht'.
    destruct (rename_Dir _ _ _ _ E) as [es' ->].
    eexists; split; [reflexivity|]. exact Hl.
  - rewrite Hr by discriminate. eexists; split; [reflexivity|]. exact Hfp.
Qed.

Lemma rename_self p t :
  rename p p t = match lookup p t with Some _ => Ok t | None => Throw ENOENT end.
Proof. unfold rename. rewrite path_eqb_refl. reflexivity. Qed.

Lemma each_file_entries fp n i (w : world node) es :
  valid_name n -> lookup fp (disk w) = Some (Dir es) ->
  exists w', each_file fp n i w = (Ok tt, w')
     /\ lookup fp (disk w') = Some (Dir (entries_step n es)).
Proof.
  intros Hv Hfp. pose proof (valid_name_lacks _ Hv) as Hs.
  rewrite each_file_run. cbv zeta. unfold entries_step.
  change (@fs_exists node mem_fs) with exists_at.
  change (@fs_mkdir_recursive node mem_fs) with mkdir_p.
  pose proof (path_join_category fp n Hs) as Hpx.
  destruct (String.eqb_spec (extName n) "") as [E|E].
  - rewrite Hpx. unfold exists_at. rewrite Hfp.
    rewrite try_rename_run. cbv zeta. rewrite Hpx.
    change (@fs_rename node mem_fs) with rename. rewrite rename_self.
    destruct (lookup (path_join fp n) _); eexists; (split; [reflexivity | exact Hfp]).
  - rewrite Hpx. unfold exists_at, with_folder. rewrite lookup_app, Hfp. simpl.
    assert (Hdst : path_join (path_join fp (extName n)) n = fp ++ [extName n; n])
      by (rewrite Hpx, path_join_name, <- app_assoc by assumption; reflexivity).
    destruct (assoc (extName n) es) as [m|] eqn:Ea.
    + apply try_rename_mem; auto using path_join_name.
    + simpl.
      destruct (mkdir_p_focus fp [extName n] (disk w) (Dir es)
                  (Dir (bind_entry (extName n) (Dir []) es)) Hfp) as [t' [Ht' Hl]].
      { simpl. rewrite Ea. reflexivity. }
      rewrite Ht'. apply try_rename_mem; auto using path_join_name.
Qed.

End TreeRun.

(* ===================================================================== *)
(** ** One entry at a time *)
(* ===================================================================== *)

Section Entries.

Lemma rename_into x n es :
  n <> x ->
  rename [n] [x; n] (Dir es)
  = match assoc n es with
    | None => Throw ENOENT
    | Some v =>
        match assoc x es with
        | None => Throw ENOENT
        | Some (File _) => Throw ENOTDIR
        | Some (Dir fs) =>
            if replaceable v (assoc n fs)
            then Ok (Dir (bind_entry x (Dir (bind_entry n v fs)) (unbind_entry n es)))
            else Throw (match v, assoc n fs with
                        | File _, _ => EISDIR
                        | Dir _, Some (File _) => ENOTDIR
                        | Dir _, _ => ENOTEMPTY
                        end)
        end
    end.
Proof.
  intros Hne. unfold rename. simpl lookup.
  destruct (assoc n es) as [v|] eqn:En; [|reflexivity].
  simpl path_eqb. pose proof Hne as Hb. apply String.eqb_neq in Hb. rewrite Hb. simpl.
  destruct (assoc x es) as [[d|fs]|] eqn:Ex; try reflexivity.
  rewrite (assoc_unbind_neq n x) by assumption.
  rewrite Ex.
  destruct v as [c|vs]; destruct (assoc n fs) as [[c'|[|e fs']]|];
    simpl; rewrite ?Hb; reflexivity.
Qed.

Lemma name_neq_category n : lacks "/"%char n -> extName n <> "" -> n <> extName n.
Proof. intros H Hx. apply extName_neq_category; assumption. Qed.

Lemma assoc_with_folder_same x es : assoc x (with_folder x es) <> None.
Proof.
  unfold with_folder. destruct (assoc x es) eqn:E; [congruence|].
  rewrite assoc_bind_eq. discriminate.
Qed.

Lemma assoc_with_folder_other x k es : k <> x -> assoc k (with_folder x es) = assoc k es.
Proof.
  intros H. unfold with_folder. destruct (assoc x es); [reflexivity|].
  apply assoc_bind_neq. congruence.
Qed.

Lemma with_folder_idem x es : assoc x es <> None -> with_folder x es = es.
Proof. unfold with_folder. destruct (assoc x es); congruence. Qed.

Lemma inside_with_folder x y k es : inside y k (with_folder x es) = inside y k es.
Proof.
  unfold inside, with_folder. destruct (assoc x es) eqn:E; [reflexivity|].
  destruct (String.eqb_spec x y).
  - subst y. rewrite assoc_bind_eq, E. reflexivity.
  - rewrite assoc_bind_neq by assumption. reflexivity.
Qed.

(** The two outcomes of the callback on an entry that has a category:
    the rename throws and only the folder may be new, or the entry is
    unlinked from the listing and linked in the folder. *)
Lemma entries_step_cases m es :
  lacks "/"%char m -> extName m <> "" ->
  let x := extName m in
  let es1 := with_folder x es in
  (entries_step m es = es1 /\ exists err, rename [m] [x; m] (Dir es1) = Throw err)
  \/ (exists v fs,
        assoc m es1 = Some v /\ assoc x es1 = Some (Dir fs)
        /\ replaceable v (assoc m fs) = true
        /\ entries_step m es
           = bind_entry x (Dir (bind_entry m v fs)) (unbind_entry m es1)).
Proof.
  intros Hs Hx x es1. unfold entries_step.
  apply String.eqb_neq in Hx. rewrite Hx. apply String.eqb_neq in Hx.
  fold x. fold es1.
  pose proof (rename_into x m es1 (name_neq_category m Hs Hx)) as Hr.
  destruct (assoc m es1) as [v|] eqn:Em.
  - destruct (assoc x es1) as [[d|fs]|] eqn:Ex.
    + left. rewrite Hr. eauto.
    + destruct (replaceable v (assoc m fs)) eqn:Hrep.
      * right. exists v, fs. rewrite Hr. auto.
      * left. rewrite Hr. eauto.
    + left. rewrite Hr. eauto.
  - left. rewrite Hr. eauto.
Qed.

(** Names other than the entry and its category keep what they name. *)
Lemma entries_step_other m es k :
  lacks "/"%char m -> k <> m -> k <> extName m ->
  assoc k (entries_step m es) = assoc k es.
Proof.
  intros Hs Hkm Hkx.
  destruct (String.eqb_spec (extName m) "") as [E|E].
  - unfold entries_step. rewrite E. reflexivity.
  - destruct (entries_step_cases m es Hs E) as [[-> _]|[v [fs [_ [_ [_ ->]]]]]].
    + apply assoc_with_folder_other. assumption.
    + rewrite assoc_bind_neq, assoc_unbind_neq by congruence.
      apply assoc_with_folder_other. assumption.
Qed.

(** The category folder: a regular file of that name stays as it is,
    otherwise there is a directory afterwards, with the entries it had
    under every name but the one of the entry. *)
Lemma entries_step_folder m es :
  lacks "/"%char m -> extName m <> "" ->
  match assoc (extName m) es with
  | Some (File d) => assoc (extName m) (entries_step m es) = Some (File d)
  | Some (Dir fs) =>
      exists fs', assoc (extName m) (entries_step m es) = Some (Dir fs')
                  /\ forall k, k <> m -> assoc k fs' = assoc k fs
  | None =>
      exists fs', assoc (extName m) (entries_step m es) = Some (Dir fs')
                  /\ forall k, k <> m -> assoc k fs' = None
  end.
Proof.
  intros Hs E.
  pose proof (name_neq_category m Hs E) as Hne.
  assert (H1 : assoc (extName m) (with_folder (extName m) es)
               = match assoc (extName m) es with Some v => Some v | None => Some (Dir []) end).
  { unfold with_folder. destruct (assoc (extName m) es) eqn:Ex; [exact Ex|].
    apply assoc_bind_eq. }
  destruct (entries_step_cases m es Hs E) as [[-> _]|[v [fs [_ [Hx [_ ->]]]]]].
  - rewrite H1. destruct (assoc (extName m) es) as [[d|fs]|]; eauto.
  - rewrite assoc_bind_eq. rewrite H1 in Hx.
    destruct (assoc (extName m) es) as [[d|fs0]|]; inversion Hx; subst;
      eexists; (split; [reflexivity|]); intros k Hk;
      rewrite assoc_bind_neq by congruence; reflexivity.
Qed.

(** The entry itself: it stays, or it is gone from the listing and is in
    the folder. *)
Lemma entries_step_self m es :
  lacks "/"%char m -> extName m <> "" ->
  (assoc m (entries_step m es) = assoc m es
   /\ inside (extName m) m (entries_step m es) = inside (extName m) m es)
  \/ (exists v, assoc m es = Some v
        /\ replaceable v (inside (extName m) m es) = true
        /\ assoc m (entries_step m es) = None
        /\ inside (extName m) m (entries_step m es) = Some v).
Proof.
  intros Hs E. pose proof (name_neq_category m Hs E) as Hne.
  destruct (entries_step_cases m es Hs E) as [[-> _]|[v [fs [Hm [Hx [Hrep ->]]]]]].
  - left. split; [apply assoc_with_folder_other; assumption | apply inside_with_folder].
  - right. exists v.
    rewrite assoc_with_folder_other in Hm by assumption.
    repeat split.
    + assumption.
    + rewrite <- (inside_with_folder (extName m)). unfold inside. rewrite Hx. exact Hrep.
    + rewrite assoc_bind_neq, assoc_unbind_eq by congruence. reflexivity.
    + unfold inside. rewrite !assoc_bind_eq. reflexivity.
Qed.

(** What is inside the folders, except at the destination of the entry and
    below the entry. *)
Lemma entries_step_inside m es y k :
  lacks "/"%char m -> y <> m -> (y <> extName m \/ k <> m) ->
  inside y k (entries_step m es) = inside y k es.
Proof.
  intros Hs Hym Hyk.
  destruct (String.eqb_spec (extName m) "") as [E|E].
  { unfold entries_step. rewrite E. reflexivity. }
  destruct (String.eqb_spec y (extName m)) as [->|Hyx].
  - destruct Hyk as [Hyk|Hk]; [congruence|].
    pose proof (entries_step_folder m es Hs E) as Hf. unfold inside.
    destruct (assoc (extName m) es) as [[d|fs]|].
    + rewrite Hf. reflexivity.
    + destruct Hf as [fs' [-> Hfs]]. apply Hfs. assumption.
    + destruct Hf as [fs' [-> Hfs]]. apply Hfs. assumption.
  - unfold inside. rewrite entries_step_other by assumption. reflexivity.
Qed.

End Entries.

(* ===================================================================== *)
(** ** The whole run on the tree *)
(* ===================================================================== *)

Section WholeRun.

Lemma forEach_entries fp l : forall i (w : world node) es,
  Forall valid_name l -> lookup fp (disk w) = Some (Dir es) ->
  exists w', forEach_from i l (each_file fp) w = (Ok tt, w')
    /\ lookup fp (disk w') = Some (Dir (entries_run l es)).
Proof.
  induction l as [|n l IH]; intros i w es Hl Hfp; simpl.
  - eexists; split; [reflexivity | exact Hfp].
  - inversion Hl as [|? ? Hn Hl']; subst.
    destruct (each_file_entries fp n i w es Hn Hfp) as [w1 [H1 Hfp1]].
    unfold bind. rewrite H1. apply IH; assumption.
Qed.

Lemma run_entries dirname t es :
  lookup (path_join dirname "files") t = Some (Dir es) ->
  Forall valid_name (map fst es) ->
  exists w', run dirname t = (Ok tt, w')
    /\ lookup (path_join dirname "files") (disk w')
       = Some (Dir (entries_run (map fst es) es)).
Proof.
  intros Hfp Hv. unfold run, organize, try_catch, organize_body, bind, readdirSync.
  cbn [disk]. change (@fs_readdir node mem_fs) with readdir.
  unfold readdir. rewrite Hfp.
  destruct (forEach_entries (path_join dirname "files") (map fst es) 0
              (record_call (call_readdir (path_join dirname "files")) (mkWorld t [] []))
              es Hv Hfp) as [w' [Hw' Hl]].
  unfold forEach. rewrite Hw'. eauto.
Qed.

Lemma entries_run_invariant (P : list (string * node) -> Prop) l : forall es,
  (forall m es, In m l -> P es -> P (entries_step m es)) ->
  P es -> P (entries_run l es).
Proof.
  induction l as [|n l IH]; intros es Hstep HP; simpl; [assumption|].
  apply IH.
  - intros m es' Hin. apply Hstep. right. assumption.
  - apply Hstep; [left; reflexivity | assumption].
Qed.

Lemma entries_step_nocat m es : extName m = "" -> entries_step m es = es.
Proof. intros E. unfold entries_step. rewrite E. reflexivity. Qed.

Lemma survives_step n v m es :
  lacks "/"%char n -> lacks "/"%char m ->
  survives n v es -> survives n v (entries_step m es).
Proof.
  intros Hn Hm. unfold survives.
  destruct (String.eqb_spec (extName m) "") as [Em|Em];
    [rewrite entries_step_nocat by assumption; auto|].
  destruct (String.eqb_spec (extName n) "") as [En|En].
  - intros [v' [Hv' Hk]].
    assert (Hnm : n <> m) by congruence.
    destruct (String.eqb_spec n (extName m)) as [->|Hnx].
    + pose proof (entries_step_folder m es Hm Em) as Hf. rewrite Hv' in Hf.
      destruct v' as [d|fs].
      * eauto.
      * destruct Hf as [fs' [Hf _]]. exists (Dir fs'). split; [assumption|].
        destruct v; simpl in *; [discriminate | eauto].
    + rewrite entries_step_other by assumption. eauto.
  - destruct (String.eqb_spec m n) as [->|Hmn].
    + destruct (entries_step_self n es Hn En) as [[H1 H2]|[v0 [H0 [_ [H1 H2]]]]].
      * rewrite H1, H2. auto.
      * intros [H|[H _]]; [|congruence]. right. split; congruence.
    + assert (n <> extName m) by (apply extName_neq_category; assumption).
      assert (extName n <> m)
        by (intros <-; apply Em; apply extName_extName; assumption).
      rewrite entries_step_other, entries_step_inside by (auto; congruence). auto.
Qed.

Lemma survives_run n v l es :
  lacks "/"%char n -> Forall valid_name l ->
  survives n v es -> survives n v (entries_run l es).
Proof.
  intros Hn Hl. apply entries_run_invariant.
  intros m es' Hin. apply survives_step; [assumption|].
  apply valid_name_lacks. rewrite Forall_forall in Hl. auto.
Qed.

Lemma survives_start n v es : assoc n es = Some v -> survives n v es.
Proof.
  intros H. unfold survives. destruct (String.eqb (extName n) ""); [|auto].
  exists v. split; [assumption|]. destruct v; simpl; eauto.
Qed.

Lemma lookup_entry fp t es n :
  lookup fp t = Some (Dir es) -> lookup (fp ++ [n]) t = assoc n es.
Proof.
  intros H. rewrite lookup_app, H. simpl. destruct (assoc n es); reflexivity.
Qed.

Lemma lookup_inside fp t es x n :
  lookup fp t = Some (Dir es) -> lookup (fp ++ [x; n]) t = inside x n es.
Proof.
  intros H. rewrite lookup_app, H. simpl. unfold inside.
  destruct (assoc x es) as [[d|fs]|]; try reflexivity.
  destruct (assoc n fs); reflexivity.
Qed.

Lemma path_join_dest fp n :
  valid_name n ->
  path_join (path_join fp (extName n)) n
  = if String.eqb (extName n) "" then fp ++ [n] else fp ++ [extName n; n].
Proof.
  intros Hv. rewrite path_join_category by (apply valid_name_lacks; assumption).
  destruct (String.eqb (extName n) ""); rewrite path_join_name by assumption;
    [reflexivity | rewrite <- app_assoc; reflexivity].
Qed.

Lemma movable_with_folder m es :
  lacks "/"%char m -> extName m <> "" ->
  movable m (with_folder (extName m) es) = movable m es.
Proof.
  intros Hs E. pose proof (name_neq_category m Hs E) as Hne.
  unfold movable. rewrite assoc_with_folder_other by assumption.
  destruct (assoc m es) as [v|]; [|reflexivity].
  unfold with_folder. destruct (assoc (extName m) es) eqn:Ex; [rewrite Ex; reflexivity|].
  rewrite assoc_bind_eq. reflexivity.
Qed.

Lemma rename_movable m es :
  lacks "/"%char m -> extName m <> "" -> assoc (extName m) es <> None ->
  if movable m es
  then exists t', rename [m] [extName m; m] (Dir es) = Ok t'
  else exists err, rename [m] [extName m; m] (Dir es) = Throw err.
Proof.
  intros Hs E Hx. rewrite rename_into by (apply name_neq_category; assumption).
  unfold movable. destruct (assoc m es) as [v|]; [|eauto].
  destruct (assoc (extName m) es) as [[d|fs]|]; [eauto| |congruence].
  destruct (replaceable v (assoc m fs)); eauto.
Qed.

Lemma entries_step_blocked m es :
  lacks "/"%char m -> extName m <> "" -> movable m es = false ->
  entries_step m es = with_folder (extName m) es.
Proof.
  intros Hs E Hmv.
  destruct (entries_step_cases m es Hs E) as [[H _]|[v [fs [Hm [Hx [Hrep _]]]]]];
    [exact H|].
  rewrite <- movable_with_folder in Hmv by assumption.
  unfold movable in Hmv. rewrite Hm, Hx in Hmv. congruence.
Qed.

Lemma entries_step_moves m es :
  lacks "/"%char m -> extName m <> "" -> movable m es = true ->
  exists v, assoc m es = Some v /\ moved m v (entries_step m es).
Proof.
  intros Hs E Hmv. pose proof (name_neq_category m Hs E) as Hne.
  destruct (entries_step_cases m es Hs E) as [[_ [err H]]|[v [fs [Hm [Hx [_ ->]]]]]].
  - rewrite <- movable_with_folder in Hmv by assumption.
    pose proof (rename_movable m _ Hs E (assoc_with_folder_same _ es)) as Hr.
    rewrite Hmv in Hr. destruct Hr as [t' Hr]. congruence.
  - exists v. rewrite assoc_with_folder_other in Hm by assumption.
    split; [assumption|]. split.
    + rewrite assoc_bind_neq, assoc_unbind_eq by congruence. reflexivity.
    + unfold inside. rewrite !assoc_bind_eq. reflexivity.
Qed.

(** The callback on another entry changes neither the entry [n] nor what
    is at its destination. *)
Lemma entries_step_frame n m es :
  lacks "/"%char n -> lacks "/"%char m -> extName n <> "" -> m <> n ->
  assoc n (entries_step m es) = assoc n es
  /\ inside (extName n) n (entries_step m es) = inside (extName n) n es.
Proof.
  intros Hn Hm En Hmn.
  destruct (String.eqb_spec (extName m) "") as [Em|Em];
    [rewrite entries_step_nocat by assumption; auto|].
  assert (n <> extName m) by (apply extName_neq_category; assumption).
  assert (extName n <> m)
    by (intros <-; apply Em; apply extName_extName; assumption).
  rewrite entries_step_other, entries_step_inside by (auto; congruence). auto.
Qed.

Lemma entries_step_folder_kind n m es :
  lacks "/"%char n -> lacks "/"%char m -> extName n <> "" -> m <> n ->
  match assoc (extName n) es with
  | Some (File d) => assoc (extName n) (entries_step m es) = Some (File d)
  | Some (Dir _) => exists fs', assoc (extName n) (entries_step m es) = Some (Dir fs')
  | None => assoc (extName n) (entries_step m es) = None
            \/ exists fs', assoc (extName n) (entries_step m es) = Some (Dir fs')
  end.
Proof.
  intros Hn Hm En Hmn.
  destruct (String.eqb_spec (extName m) "") as [Em|Em].
  { rewrite entries_step_nocat by assumption.
    destruct (assoc (extName n) es) as [[d|fs]|]; eauto. }
  assert (extName n <> m)
    by (intros <-; apply Em; apply extName_extName; assumption).
  destruct (String.eqb_spec (extName n) (extName m)) as [Exx|Exx].
  - rewrite Exx. pose proof (entries_step_folder m es Hm Em) as Hf.
    destruct (assoc (extName m) es) as [[d|fs]|]; [assumption| |];
      destruct Hf as [fs' [Hf _]]; eauto.
  - rewrite entries_step_other by assumption.
    destruct (assoc (extName n) es) as [[d|fs]|]; eauto.
Qed.

Lemma inside_Some x n es v :
  inside x n es = Some v -> exists fs, assoc x es = Some (Dir fs) /\ assoc n fs = Some v.
Proof.
  unfold inside. destruct (assoc x es) as [[d|fs]|]; try discriminate. eauto.
Qed.

Lemma movable_inside m es :
  movable m es
  = match assoc m es with
    | None => false
    | Some v =>
        match assoc (extName m) es with
        | Some (File _) => false
        | _ => replaceable v (inside (extName m) m es)
        end
    end.
Proof.
  unfold movable, inside. destruct (assoc m es); [|reflexivity].
  destruct (assoc (extName m) es) as [[d|fs]|]; reflexivity.
Qed.

Lemma movable_step_other n m es :
  lacks "/"%char n -> lacks "/"%char m -> extName n <> "" -> m <> n ->
  movable n (entries_step m es) = movable n es.
Proof.
  intros Hn Hm En Hmn.
  destruct (entries_step_frame n m es Hn Hm En Hmn) as [H1 H2].
  pose proof (entries_step_folder_kind n m es Hn Hm En Hmn) as Hk.
  rewrite !movable_inside, H1, H2.
  destruct (assoc n es) as [v|]; [|reflexivity].
  destruct (assoc (extName n) es) as [[d|fs]|].
  - rewrite Hk. reflexivity.
  - destruct Hk as [fs' ->]. reflexivity.
  - destruct Hk as [->|[fs' ->]]; reflexivity.
Qed.

End WholeRun.

Section Moves.

Lemma moved_step n v m es :
  lacks "/"%char n -> lacks "/"%char m -> extName n <> "" ->
  moved n v es -> moved n v (entries_step m es).
Proof.
  intros Hn Hm En [H1 H2]. unfold moved.
  destruct (String.eqb_spec m n) as [->|Hmn].
  - rewrite entries_step_blocked by (auto; unfold movable; rewrite H1; reflexivity).
    rewrite assoc_with_folder_other, inside_with_folder
      by (apply name_neq_category; assumption).
    auto.
  - destruct (entries_step_frame n m es Hn Hm En Hmn) as [-> ->]. auto.
Qed.

(** An entry that can be moved when the directory is listed has been moved
    when the run is over. *)
Lemma moved_run n v l : forall es,
  lacks "/"%char n -> Forall valid_name l -> extName n <> "" ->
  (moved n v es \/ (In n l /\ assoc n es = Some v /\ movable n es = true)) ->
  moved n v (entries_run l es).
Proof.
  induction l as [|m l IH]; intros es Hn Hl En H.
  - destruct H as [H|[[] _]]. exact H.
  - inversion Hl as [|? ? Hm Hl']; subst. apply valid_name_lacks in Hm.
    simpl. apply IH; auto.
    destruct H as [H|[Hin [Ha Hmv]]].
    + left. apply moved_step; assumption.
    + destruct (String.eqb_spec m n) as [->|Hmn].
      * left. destruct (entries_step_moves n es Hn En Hmv) as [v' [Hv' Hmoved]].
        congruence.
      * right. destruct Hin as [Hin|Hin]; [congruence|].
        destruct (entries_step_frame n m es Hn Hm En Hmn) as [-> _].
        rewrite movable_step_other by assumption. auto.
Qed.

Lemma settled_fixed m es : lacks "/"%char m -> settled m es -> entries_step m es = es.
Proof.
  intros Hs [E|[Hx Hmv]]; [apply entries_step_nocat; assumption|].
  destruct (String.eqb_spec (extName m) "") as [E|E];
    [apply entries_step_nocat; assumption|].
  rewrite entries_step_blocked by assumption. apply with_folder_idem. assumption.
Qed.

Lemma settled_own m es : lacks "/"%char m -> settled m (entries_step m es).
Proof.
  intros Hs. destruct (String.eqb_spec (extName m) "") as [E|E]; [left; assumption|].
  right. destruct (movable m es) eqn:Hmv.
  - destruct (entries_step_moves m es Hs E Hmv) as [v [_ [H1 H2]]].
    split.
    + apply inside_Some in H2. destruct H2 as [fs [-> _]]. discriminate.
    + unfold movable. rewrite H1. reflexivity.
  - rewrite entries_step_blocked by assumption. split.
    + apply assoc_with_folder_same.
    + rewrite movable_with_folder; assumption.
Qed.

Lemma settled_step m a es :
  lacks "/"%char m -> lacks "/"%char a ->
  settled m es -> settled m (entries_step a es).
Proof.
  intros Hm Ha Hs.
  destruct (String.eqb_spec a m) as [->|Ham];
    [rewrite settled_fixed; assumption|].
  destruct Hs as [E|[Hx Hmv]]; [left; assumption|].
  destruct (String.eqb_spec (extName m) "") as [E|E]; [left; assumption|].
  right. split.
  - pose proof (entries_step_folder_kind m a es Hm Ha E Ham) as Hk.
    destruct (assoc (extName m) es) as [[d|fs]|]; [| |congruence].
    + rewrite Hk. discriminate.
    + destruct Hk as [fs' ->]. discriminate.
  - rewrite movable_step_other; assumption.
Qed.

(** After the run every listed name is settled. *)
Lemma settled_run l : forall es m,
  Forall valid_name l -> In m l -> settled m (entries_run l es).
Proof.
  induction l as [|a l IH]; intros es m Hl Hin; [destruct Hin|].
  inversion Hl as [|? ? Ha Hl']; subst. simpl.
  destruct (in_dec string_dec m l) as [Hml|Hml]; [apply IH; assumption|].
  destruct Hin as [->|Hin]; [|contradiction].
  apply entries_run_invariant.
  - intros a es' Hal. apply settled_step; apply valid_name_lacks;
      [assumption | rewrite Forall_forall in Hl'; auto].
  - apply settled_own. apply valid_name_lacks. assumption.
Qed.

(** A name with a category is in the listing only if it was there before. *)
Lemma entries_step_listed k m es :
  lacks "/"%char k -> lacks "/"%char m -> extName k <> "" ->
  assoc k (entries_step m es) <> None -> assoc k es <> None.
Proof.
  intros Hk Hm Ek.
  destruct (String.eqb_spec (extName m) "") as [Em|Em];
    [rewrite entries_step_nocat by assumption; auto|].
  destruct (String.eqb_spec k m) as [->|Hkm].
  - destruct (entries_step_self m es Hm Em) as [[-> _]|[v [-> _]]];
      [auto | discriminate].
  - rewrite entries_step_other; auto. apply extName_neq_category; assumption.
Qed.

Lemma entries_run_listed k l : forall es,
  lacks "/"%char k -> Forall valid_name l -> extName k <> "" ->
  assoc k (entries_run l es) <> None -> assoc k es <> None.
Proof.
  induction l as [|m l IH]; intros es Hk Hl Ek H; [exact H|].
  inversion Hl as [|? ? Hm Hl']; subst. simpl in H.
  apply (entries_step_listed k m); auto using valid_name_lacks.
Qed.

Lemma valid_category m : lacks "/"%char m -> extName m <> "" -> valid_name (extName m).
Proof.
  intros Hs E. destruct (extName_lacks m Hs) as [Hd Hsl].
  destruct (lacks_dot_neq _ Hd) as [H1 H2].
  unfold valid_name, valid_nameb.
  apply String.eqb_neq in E, H1, H2. rewrite E, H1, H2. simpl.
  apply lacksb_lacks. assumption.
Qed.

Lemma names_bind_entry (P : string -> Prop) k v es :
  P k -> Forall P (map fst es) -> Forall P (map fst (bind_entry k v es)).
Proof.
  intros Hk. induction es as [|[k0 v0] es IH]; simpl; intros H.
  - constructor; auto.
  - inversion H; subst. destruct (String.eqb k k0); simpl; constructor; auto.
Qed.

Lemma names_unbind_entry (P : string -> Prop) k es :
  Forall P (map fst es) -> Forall P (map fst (unbind_entry k es)).
Proof.
  induction es as [|[k0 v0] es IH]; simpl; intros H; [constructor|].
  inversion H; subst. destruct (String.eqb k k0); simpl; [|constructor]; auto.
Qed.

Lemma names_with_folder (P : string -> Prop) x es :
  P x -> Forall P (map fst es) -> Forall P (map fst (with_folder x es)).
Proof.
  intros Hx H. unfold with_folder. destruct (assoc x es); [assumption|].
  apply names_bind_entry; assumption.
Qed.

Lemma entries_step_valid m es :
  lacks "/"%char m -> Forall valid_name (map fst es) ->
  Forall valid_name (map fst (entries_step m es)).
Proof.
  intros Hs H.
  destruct (String.eqb_spec (extName m) "") as [E|E];
    [rewrite entries_step_nocat by assumption; assumption|].
  pose proof (valid_category m Hs E) as Hx.
  destruct (entries_step_cases m es Hs E) as [[-> _]|[v [fs [_ [_ [_ ->]]]]]].
  - apply names_with_folder; assumption.
  - apply names_bind_entry; [assumption|].
    apply names_unbind_entry, names_with_folder; assumption.
Qed.

Lemma entries_run_valid l : forall es,
  Forall valid_name l -> Forall valid_name (map fst es) ->
  Forall valid_name (map fst (entries_run l es)).
Proof.
  induction l as [|m l IH]; intros es Hl H; [exact H|].
  inversion Hl; subst. simpl. apply IH; [assumption|].
  apply entries_step_valid; auto using valid_name_lacks.
Qed.

(** Everything listed after a run is settled. *)
Lemma run_settled es m :
  Forall valid_name (map fst es) ->
  In m (map fst (entries_run (map fst es) es)) ->
  settled m (entries_run (map fst es) es).
Proof.
  intros Hv Hin.
  assert (Hm : valid_name m).
  { pose proof (entries_run_valid (map fst es) es Hv Hv) as H.
    rewrite Forall_forall in H. auto. }
  apply valid_name_lacks in Hm.
  destruct (String.eqb_spec (extName m) "") as [E|E]; [left; assumption|].
  apply settled_run; [assumption|].
  apply assoc_In. apply assoc_In in Hin.
  eapply entries_run_listed; eauto.
Qed.

(** An entry without category that is nobody's folder is not touched. *)
Lemma entry_untouched n v l : forall es,
  Forall valid_name l -> extName n = "" ->
  (forall m, In m l -> extName m <> n) ->
  assoc n es = Some v -> assoc n (entries_run l es) = Some v.
Proof.
  intros es Hl En Hcat.
  apply (entries_run_invariant (fun es => assoc n es = Some v)).
  intros m es' Hin H.
  destruct (String.eqb_spec n m) as [->|Hnm];
    [rewrite entries_step_nocat; assumption|].
  rewrite entries_step_other; auto.
  - apply valid_name_lacks. rewrite Forall_forall in Hl. auto.
  - intros ->. apply (Hcat m); auto.
Qed.

End Moves.

(* ===================================================================== *)
(** ** Settled entries and the calls of a run *)
(* ===================================================================== *)

Section Settled.

(** The callback on an entry that can be moved and whose folder exists. *)
Lemma each_file_moves fp n i (w : world node) es :
  valid_name n -> lookup fp (disk w) = Some (Dir es) ->
  extName n <> "" -> assoc (extName n) es <> None -> movable n es = true ->
  exists w',
    each_file fp n i w = (Ok tt, w')
    /\ console w' = console w ++ [folder_exists; File_moved_successfully]
    /\ lookup fp (disk w') = Some (Dir (entries_step n es)).
Proof.
  intros Hv Hfp E Hx Hmv. pose proof (valid_name_lacks _ Hv) as Hs.
  destruct (each_file_entries fp n i w es Hv Hfp) as [w' [Hrun Hfp']].
  exists w'. split; [assumption|]. split; [|assumption].
  rewrite each_file_run in Hrun. cbv zeta in Hrun.
  change (@fs_exists node mem_fs) with exists_at in Hrun.
  pose proof (path_join_category fp n Hs) as Hpx.
  pose proof (path_join_dest fp n Hv) as Hdst.
  pose proof E as Eb. apply String.eqb_neq in Eb. rewrite Eb in Hpx, Hdst.
  rewrite Hpx in Hrun. unfold exists_at in Hrun.
  rewrite (lookup_entry _ _ _ _ Hfp) in Hrun.
  destruct (assoc (extName n) es) eqn:Ex; [|congruence].
  rewrite try_rename_run in Hrun. cbv zeta in Hrun.
  rewrite <- Hpx, Hdst, path_join_name in Hrun by assumption.
  change (@fs_rename node mem_fs) with rename in Hrun. cbn [disk console] in Hrun.
  pose proof (rename_focus fp [n] [extName n; n] (disk w) (Dir es) Hfp) as Hr.
  pose proof (rename_movable n es Hs E) as Hm. rewrite Hmv in Hm.
  destruct Hm as [t' Hm]; [congruence|]. rewrite Hm in Hr.
  destruct Hr as [t2 [Hr _]]; try discriminate. rewrite Hr in Hrun.
  inversion Hrun; subst. cbn [console]. rewrite <- app_assoc. reflexivity.
Qed.

Lemma each_file_settled fp m i (w : world node) es :
  valid_name m -> lookup fp (disk w) = Some (Dir es) -> settled m es ->
  exists w' line,
    each_file fp m i w = (Ok tt, w')
    /\ disk w' = disk w
    /\ console w' = console w ++ [folder_exists; line]
    /\ (extName m = "" -> assoc m es <> None -> line = File_moved_successfully).
Proof.
  intros Hv Hfp Hset. pose proof (valid_name_lacks _ Hv) as Hs.
  rewrite each_file_run. cbv zeta.
  change (@fs_exists node mem_fs) with exists_at.
  pose proof (path_join_category fp m Hs) as Hpx.
  pose proof (path_join_dest fp m Hv) as Hdst.
  destruct (String.eqb_spec (extName m) "") as [E|E].
  - rewrite Hpx. unfold exists_at. rewrite Hfp.
    rewrite try_rename_run. cbv zeta. rewrite Hdst, path_join_name by assumption.
    change (@fs_rename node mem_fs) with rename. rewrite rename_self.
    cbn [disk console]. rewrite (lookup_entry _ _ _ _ Hfp).
    destruct (assoc m es); do 2 eexists; (split; [reflexivity|]);
      (split; [reflexivity|]); rewrite <- app_assoc; (split; [reflexivity|]);
      [reflexivity | congruence].
  - destruct Hset as [?|[Hx Hmv]]; [contradiction|].
    rewrite Hpx. unfold exists_at. rewrite (lookup_entry _ _ _ _ Hfp).
    destruct (assoc (extName m) es) eqn:Ex; [|congruence].
    rewrite try_rename_run. cbv zeta. rewrite Hdst, path_join_name by assumption.
    change (@fs_rename node mem_fs) with rename. cbn [disk console].
    pose proof (rename_focus fp [m] [extName m; m] (disk w) (Dir es) Hfp) as Hr.
    pose proof (rename_movable m es Hs E) as Hm. rewrite Hmv in Hm.
    destruct Hm as [err Hm]; [congruence|]. rewrite Hm in Hr.
    rewrite Hr by discriminate.
    do 2 eexists; (split; [reflexivity|]); (split; [reflexivity|]);
      rewrite <- app_assoc; (split; [reflexivity|]). contradiction.
Qed.

Lemma forEach_settled fp l : forall i (w : world node) es,
  Forall valid_name l -> lookup fp (disk w) = Some (Dir es) ->
  (forall m, In m l -> settled m es) ->
  exists w',
    forEach_from i l (each_file fp) w = (Ok tt, w')
    /\ disk w' = disk w
    /\ (forall line, In line (console w) -> In line (console w'))
    /\ (forall m, In m l -> extName m = "" -> assoc m es <> None ->
                  In File_moved_successfully (console w')).
Proof.
  induction l as [|m l IH]; intros i w es Hl Hfp Hall; simpl.
  - exists w. repeat split; auto. intros m [].
  - inversion Hl as [|? ? Hm Hl']; subst.
    destruct (each_file_settled fp m i w es Hm Hfp (Hall m (or_introl eq_refl)))
      as [w1 [line [H1 [Hd1 [Hc1 Hline]]]]].
    unfold bind. rewrite H1.
    destruct (IH (S i) w1 es Hl') as [w2 [H2 [Hd2 [Hmono Hmoved]]]].
    + rewrite Hd1. assumption.
    + intros k Hk. apply Hall. right. assumption.
    + exists w2. split; [assumption|]. split; [congruence|]. split.
      * intros x Hx. apply Hmono. rewrite Hc1. apply in_or_app. auto.
      * intros k [->|Hk] E Hk'; [|eauto].
        apply Hmono. rewrite Hc1, (Hline E Hk'). apply in_or_app. right. simpl. auto.
Qed.

Lemma is_prefix_self_app p r : is_prefix p (p ++ r) = true.
Proof. induction p; simpl; [reflexivity | rewrite String.eqb_refl; assumption]. Qed.

Lemma is_prefix_refl p : is_prefix p p = true.
Proof. rewrite <- (app_nil_r p) at 2. apply is_prefix_self_app. Qed.

Lemma call_of_entry_inside fp n c : call_of_entry fp n c -> call_inside fp c.
Proof.
  destruct c; simpl.
  - contradiction.
  - intros ->. destruct (String.eqb (extName n) "");
      auto using is_prefix_refl, is_prefix_self_app.
  - intros [_ ->]. apply is_prefix_self_app.
  - intros [-> ->]. destruct (String.eqb (extName n) "");
      auto using is_prefix_self_app.
Qed.

(** The calls of one callback on the tree. *)
Lemma each_file_calls fp n i (w : world node) es :
  valid_name n -> lookup fp (disk w) = Some (Dir es) ->
  exists cs, calls (snd (each_file fp n i w)) = calls w ++ cs
             /\ Forall (call_of_entry fp n) cs.
Proof.
  intros Hv Hfp. pose proof (valid_name_lacks _ Hv) as Hs.
  rewrite each_file_run. cbv zeta.
  change (@fs_exists node mem_fs) with exists_at.
  pose proof (path_join_category fp n Hs) as Hpx.
  pose proof (path_join_dest fp n Hv) as Hdst.
  assert (Hren : forall w0 : world node,
            calls (snd (try_rename fp (extName n) n w0))
            = calls w0 ++ [call_rename (path_join fp n)
                             (path_join (path_join fp (extName n)) n)]).
  { intros w0. rewrite try_rename_run. cbv zeta.
    destruct (fs_rename _ _ (disk w0)); reflexivity. }
  assert (Hok : call_of_entry fp n (call_rename (path_join fp n)
                             (path_join (path_join fp (extName n)) n))).
  { simpl. rewrite Hdst, path_join_name by assumption. auto. }
  assert (Hex : call_of_entry fp n (call_exists (path_join fp (extName n)))).
  { simpl. exact Hpx. }
  destruct (exists_at (path_join fp (extName n)) (disk w)) eqn:Hfound.
  - rewrite Hren. cbn [calls].
    exists [call_exists (path_join fp (extName n));
            call_rename (path_join fp n) (path_join (path_join fp (extName n)) n)].
    rewrite <- app_assoc. split; [reflexivity|]. auto.
  - assert (E : extName n <> "").
    { intros E. rewrite Hpx, E in Hfound. simpl in Hfound.
      unfold exists_at in Hfound. rewrite Hfp in Hfound. discriminate. }
    assert (Hmk : call_of_entry fp n (call_mkdir (path_join fp (extName n)))).
    { simpl. split; [assumption|].
      rewrite Hpx. apply String.eqb_neq in E. rewrite E. reflexivity. }
    destruct (fs_mkdir_recursive _ (disk w)).
    + rewrite Hren. cbn [calls].
      exists [call_exists (path_join fp (extName n));
              call_mkdir (path_join fp (extName n));
              call_rename (path_join fp n) (path_join (path_join fp (extName n)) n)].
      rewrite <- !app_assoc. split; [reflexivity|]. auto.
    + cbn [snd calls].
      exists [call_exists (path_join fp (extName n));
              call_mkdir (path_join fp (extName n))].
      rewrite <- !app_assoc. split; [reflexivity|]. auto.
Qed.

Lemma forEach_calls fp l : forall i (w : world node) es,
  Forall valid_name l -> lookup fp (disk w) = Some (Dir es) ->
  exists cs, calls (snd (forEach_from i l (each_file fp) w)) = calls w ++ cs
    /\ Forall (fun c => exists n, In n l /\ call_of_entry fp n c) cs.
Proof.
  induction l as [|n l IH]; intros i w es Hl Hfp; simpl.
  - exists []. rewrite app_nil_r. auto.
  - inversion Hl as [|? ? Hn Hl']; subst.
    destruct (each_file_entries fp n i w es Hn Hfp) as [w1 [H1 Hfp1]].
    destruct (each_file_calls fp n i w es Hn Hfp) as [cs1 [Hc1 Hall1]].
    rewrite H1 in Hc1. cbn [snd] in Hc1.
    unfold bind. rewrite H1.
    destruct (IH (S i) w1 _ Hl' Hfp1) as [cs2 [Hc2 Hall2]].
    exists (cs1 ++ cs2). rewrite Hc2, Hc1, app_assoc. split; [reflexivity|].
    apply Forall_app. split.
    + eapply Forall_impl; [|exact Hall1]. intros c Hc. exists n. split; [left|]; auto.
    + eapply Forall_impl; [|exact Hall2]. intros c [k [Hk Hc]]. exists k. split; [right|]; auto.
Qed.

End Settled.

(* ===================================================================== *)
(** ** The run when calls fail by force *)
(* ===================================================================== *)

Section Faults.

Lemma entries_step_unfold n es :
  extName n <> "" ->
  entries_step n es
  = match rename [n] [extName n; n] (Dir (with_folder (extName n) es)) with
    | Ok (Dir es2) => es2
    | _ => with_folder (extName n) es
    end.
Proof.
  intros E. unfold entries_step. apply String.eqb_neq in E. rewrite E. reflexivity.
Qed.

Lemma try_rename_faulty fp x n (w : world fdisk) es :
  path_join fp n = fp ++ [n] -> path_join (path_join fp x) n = fp ++ [x; n] ->
  lookup fp (tree (disk w)) = Some (Dir es) ->
  exists w',
    try_rename fp x n w = (Ok tt, w')
    /\ (lookup fp (tree (disk w')) = Some (Dir es)
        \/ lookup fp (tree (disk w'))
           = Some (Dir (match rename [n] [x; n] (Dir es) with
                        | Ok (Dir es2) => es2
                        | _ => es
                        end))).
Proof.
  intros Hsrc Hdst Hfp. rewrite try_rename_run. cbv zeta. rewrite Hsrc, Hdst.
  change (@fs_rename fdisk faulty_fs (fp ++ [n]) (fp ++ [x; n]) (disk w))
    with (forced (call_rename (fp ++ [n]) (fp ++ [x; n])) (disk w)
            (rename (fp ++ [n]) (fp ++ [x; n]) (tree (disk w)))).
  unfold forced.
  destruct (fault (disk w) _); [eexists; split; [reflexivity | left; exact Hfp]|].
  pose proof (rename_focus fp [n] [x; n] (tree (disk w)) (Dir es) Hfp) as Hr.
  destruct (rename [n] [x; n] (Dir es)) as [sub'|err] eqn:E.
  - destruct Hr as [t' [Ht' Hl]]; try discriminate. rewrite Ht'.
    destruct (rename_Dir _ _ _ _ E) as [es' ->].
    eexists; split; [reflexivity | right; exact Hl].
  - rewrite Hr by discriminate. eexists; split; [reflexivity | left; exact Hfp].
Qed.

Lemma each_file_faulty fp n i (w : world fdisk) es :
  valid_name n -> lookup fp (tree (disk w)) = Some (Dir es) ->
  exists r w' es',
    each_file fp n i w = (r, w')
    /\ lookup fp (tree (disk w')) = Some (Dir es')
    /\ step_outcome n es es'.
Proof.
  intros Hv Hfp. pose proof (valid_name_lacks _ Hv) as Hs.
  rewrite each_file_run. cbv zeta.
  change (@fs_exists fdisk faulty_fs) with (fun p d => exists_at p (tree d)).
  cbv beta.
  pose proof (path_join_category fp n Hs) as Hpx.
  pose proof (path_join_dest fp n Hv) as Hdst.
  destruct (String.eqb_spec (extName n) "") as [E|E].
  - rewrite Hpx. unfold exists_at. rewrite Hfp.
    rewrite try_rename_run. cbv zeta. rewrite Hdst, path_join_name by assumption.
    change (@fs_rename fdisk faulty_fs (fp ++ [n]) (fp ++ [n]) ?d)
      with (forced (call_rename (fp ++ [n]) (fp ++ [n])) d
              (rename (fp ++ [n]) (fp ++ [n]) (tree d))).
    unfold forced. cbn [disk]. rewrite rename_self.
    destruct (fault (disk w) _);
      [|destruct (lookup (fp ++ [n]) (tree (disk w)))];
      do 3 eexists; (split; [reflexivity|]); (split; [exact Hfp | left; reflexivity]).
  - rewrite Hpx. unfold exists_at. rewrite (lookup_entry _ _ _ _ Hfp).
    assert (Hsrc : path_join fp n = fp ++ [n]) by (apply path_join_name; assumption).
    destruct (assoc (extName n) es) as [m|] eqn:Ea.
    + destruct (try_rename_faulty fp (extName n) n
                  (mkWorld (disk w) (console w ++ [folder_exists])
                     (calls w ++ [call_exists (fp ++ [extName n])])) es Hsrc Hdst Hfp)
        as [w' [Hw' Hl]].
      rewrite Hw'.
      destruct Hl as [Hl|Hl]; do 3 eexists; (split; [reflexivity|]);
        (split; [exact Hl|]); [left; reflexivity | right; right].
      rewrite entries_step_unfold by assumption.
      unfold with_folder. rewrite Ea. reflexivity.
    + change (@fs_mkdir_recursive fdisk faulty_fs (fp ++ [extName n]) (disk w))
        with (forced (call_mkdir (fp ++ [extName n])) (disk w)
                (mkdir_p (fp ++ [extName n]) (tree (disk w)))).
      unfold forced.
      destruct (fault (disk w) (call_mkdir _));
        [do 3 eexists; (split; [reflexivity|]); (split; [exact Hfp | left; reflexivity])|].
      destruct (mkdir_p_focus fp [extName n] (tree (disk w)) (Dir es)
                  (Dir (bind_entry (extName n) (Dir []) es)) Hfp) as [t' [Ht' Hl]].
      { simpl. rewrite Ea. reflexivity. }
      rewrite Ht'.
      destruct (try_rename_faulty fp (extName n) n
                  (mkWorld (mkF t' (fault (disk w))) (console w)
                     ((calls w ++ [call_exists (fp ++ [extName n])])
                      ++ [call_mkdir (fp ++ [extName n])]))
                  (bind_entry (extName n) (Dir []) es) Hsrc Hdst Hl)
        as [w' [Hw' Hl']].
      rewrite Hw'.
      destruct Hl' as [Hl'|Hl']; do 3 eexists; (split; [reflexivity|]);
        (split; [exact Hl'|]); [right; left; split; [assumption|] | right; right].
      * unfold with_folder. rewrite Ea. reflexivity.
      * rewrite entries_step_unfold by assumption.
        unfold with_folder. rewrite Ea. reflexivity.
Qed.

(** A property of the entries that every outcome of the callback keeps
    holds when [forEach] is over, however it ends. *)
Lemma forEach_faulty (P : list (string * node) -> Prop) fp l :
  forall i (w : world fdisk) es,
  (forall m e e', In m l -> P e -> step_outcome m e e' -> P e') ->
  Forall valid_name l -> lookup fp (tree (disk w)) = Some (Dir es) -> P es ->
  exists r w' es',
    forEach_from i l (each_file fp) w = (r, w')
    /\ lookup fp (tree (disk w')) = Some (Dir es')
    /\ P es'.
Proof.
  induction l as [|n l IH]; intros i w es Hstep Hl Hfp HP; simpl.
  - exists (Ok tt), w, es. auto.
  - inversion Hl as [|? ? Hn Hl']; subst.
    destruct (each_file_faulty fp n i w es Hn Hfp) as [r [w1 [es1 [H1 [Hfp1 Hout]]]]].
    assert (HP1 : P es1) by (eapply Hstep; [left; reflexivity | eassumption | assumption]).
    unfold bind. rewrite H1. destruct r as [[]|err].
    + apply (IH (S i) w1 es1); auto.
      intros m e e' Hm. apply Hstep. right. assumption.
    + exists (Throw err), w1, es1. auto.
Qed.

Lemma run_faulty (P : list (string * node) -> Prop) dirname (d : fdisk) es :
  (forall m e e', In m (map fst es) -> P e -> step_outcome m e e' -> P e') ->
  Forall valid_name (map fst es) ->
  lookup (path_join dirname "files") (tree d) = Some (Dir es) -> P es ->
  exists w' es',
    run dirname d = (Ok tt, w')
    /\ lookup (path_join dirname "files") (tree (disk w')) = Some (Dir es')
    /\ P es'.
Proof.
  intros Hstep Hv Hfp HP.
  destruct (@fs_readdir fdisk faulty_fs (path_join dirname "files") d) as [l|err] eqn:Hl.
  - assert (l = map fst es).
    { change (@fs_readdir fdisk faulty_fs) with freaddir in Hl. unfold freaddir, readdir in Hl.
      destruct (fault d _); [discriminate|]. rewrite Hfp in Hl. congruence. }
    subst l. rewrite (run_listing dirname d _ Hl).
    destruct (forEach_faulty P (path_join dirname "files") (map fst es) 0
                (mkWorld d [] [call_readdir (path_join dirname "files")]) es
                Hstep Hv Hfp HP) as [r [w' [es' [Hrun [Hfp' HP']]]]].
    rewrite Hrun. destruct r as [[]|err]; eauto.
  - rewrite (run_unlistable dirname d err Hl). eauto.
Qed.

Lemma survives_with_folder n v x es :
  (extName n <> "" -> n <> x) ->
  survives n v es -> survives n v (with_folder x es).
Proof.
  intros Hx. unfold survives.
  destruct (String.eqb_spec (extName n) "") as [E|E].
  - intros [v' [Hv' Hk]]. exists v'. split; [|assumption].
    destruct (String.eqb_spec n x) as [->|Hnx].
    + rewrite with_folder_idem; congruence.
    + rewrite assoc_with_folder_other; assumption.
  - rewrite inside_with_folder, assoc_with_folder_other by auto. auto.
Qed.

Lemma survives_outcome n v m es es' :
  lacks "/"%char n -> lacks "/"%char m ->
  survives n v es -> step_outcome m es es' -> survives n v es'.
Proof.
  intros Hn Hm Hs [->|[[E ->]| ->]].
  - assumption.
  - apply survives_with_folder; [|assumption].
    intros En. apply extName_neq_category; assumption.
  - apply survives_step; assumption.
Qed.

End Faults.

(* ===================================================================== *)
(** ** The script at work *)
(* ===================================================================== *)

Example extName_txt : extName "a.txt" = "txt".
Proof. reflexivity. Qed.

Example extName_targz : extName "archive.tar.gz" = "gz".
Proof. reflexivity. Qed.

Example extName_gitignore : extName ".gitignore" = "".
Proof. reflexivity. Qed.

Example extName_README : extName "README" = "".
Proof. reflexivity. Qed.

Example extName_trailing_dot : extName "draft." = "".
Proof. reflexivity. Qed.

Example extName_dotdot : extName ".." = "".
Proof. reflexivity. Qed.

Example extname_of_directory_part : extname "a.b/c" = "".
Proof. reflexivity. Qed.

Example extname_trailing_slashes : extname "a.b//" = ".b".
Proof. reflexivity. Qed.

Example path_join_files : path_join ["app"] "files" = ["app"; "files"].
Proof. reflexivity. Qed.

Example path_join_empty : path_join ["app"; "files"] "" = ["app"; "files"].
Proof. reflexivity. Qed.

Example path_join_normalises : path_join ["home"; "u"] "../x/./y" = ["home"; "x"; "y"].
Proof. reflexivity. Qed.

(** The end-to-end scenario: [a.txt] and [c.txt] go to [txt], [b.jpg] to
    [jpg], and [notes] stays in the listed directory. *)
Example scenario_run :
  run ["app"] disk_scenario
  = (Ok tt,
     mkWorld
       (in_app [("notes", File "N");
                ("txt", Dir [("a.txt", File "A"); ("c.txt", File "C")]);
                ("jpg", Dir [("b.jpg", File "B")])])
       [File_moved_successfully; File_moved_successfully;
        folder_exists; File_moved_successfully;
        folder_exists; File_moved_successfully]
       [call_readdir ["app"; "files"];
        call_exists ["app"; "files"; "txt"];
        call_mkdir ["app"; "files"; "txt"];
        call_rename ["app"; "files"; "a.txt"] ["app"; "files"; "txt"; "a.txt"];
        call_exists ["app"; "files"; "jpg"];
        call_mkdir ["app"; "files"; "jpg"];
        call_rename ["app"; "files"; "b.jpg"] ["app"; "files"; "jpg"; "b.jpg"];
        call_exists ["app"; "files"; "txt"];
        call_rename ["app"; "files"; "c.txt"] ["app"; "files"; "txt"; "c.txt"];
        call_exists ["app"; "files"];
        call_rename ["app"; "files"; "notes"] ["app"; "files"; "notes"]]).
Proof. vm_compute. reflexivity. Qed.

(** A rename that fails is written to the console and the next entry is
    handled: [txt] is a regular file here, so [a.txt] cannot be moved. *)
Example rename_failure_is_local :
  run ["app"] (in_app [("a.txt", File "A"); ("b.jpg", File "B"); ("txt", File "T")])
  = (Ok tt,
     mkWorld
       (in_app [("a.txt", File "A"); ("txt", File "T");
                ("jpg", Dir [("b.jpg", File "B")])])
       [folder_exists; error_line ENOTDIR; File_moved_successfully;
        folder_exists; File_moved_successfully]
       [call_readdir ["app"; "files"];
        call_exists ["app"; "files"; "txt"];
        call_rename ["app"; "files"; "a.txt"] ["app"; "files"; "txt"; "a.txt"];
        call_exists ["app"; "files"; "jpg"];
        call_mkdir ["app"; "files"; "jpg"];
        call_rename ["app"; "files"; "b.jpg"] ["app"; "files"; "jpg"; "b.jpg"];
        call_exists ["app"; "files"];
        call_rename ["app"; "files"; "txt"] ["app"; "files"; "txt"]]).
Proof. vm_compute. reflexivity. Qed.

(** A listed file whose name is taken in its folder replaces the file
    that was there; the second pair of lines is for the entry [txt]. *)
Example collision_run :
  let w' := snd (run ["app"] disk_collision) in
  disk w' = in_app [("txt", Dir [("b.txt", File "new")])]
  /\ console w' = [folder_exists; File_moved_successfully;
                   folder_exists; File_moved_successfully].
Proof. vm_compute. split; reflexivity. Qed.

(** Three spellings of an extension make three folders. *)
Example case_run :
  let w' := snd (run ["app"] disk_case) in
  disk w' = in_app [("TXT", Dir [("a.TXT", File "1")]);
                    ("txt", Dir [("b.txt", File "2")]);
                    ("Txt", Dir [("c.Txt", File "3")])]
  /\ console w' = [File_moved_successfully; File_moved_successfully;
                   File_moved_successfully].
Proof. vm_compute. split; reflexivity. Qed.

(** A name without extension is renamed onto itself. *)
Example readme_run :
  run ["app"] disk_readme
  = (Ok tt,
     mkWorld disk_readme
       [folder_exists; File_moved_successfully]
       [call_readdir ["app"; "files"];
        call_exists ["app"; "files"];
        call_rename ["app"; "files"; "README"] ["app"; "files"; "README"]]).
Proof. vm_compute. reflexivity. Qed.

(** The directory [images] stays, the directory [photos.old] goes to the
    new folder [old]. *)
Example directories_run :
  let w' := snd (run ["app"] disk_dirs) in
  disk w' = in_app [("images", Dir [("logo.png", File "L")]);
                    ("old", Dir [("photos.old", Dir [("p1.jpg", File "P")])])]
  /\ console w' = [folder_exists; File_moved_successfully; File_moved_successfully].
Proof. vm_compute. split; reflexivity. Qed.

(** The second run of the end-to-end scenario: [notes], [txt] and [jpg]
    are listed, and each is renamed onto itself. *)
Example scenario_second_run :
  run ["app"] (disk (snd (run ["app"] disk_scenario)))
  = (Ok tt,
     mkWorld
       (in_app [("notes", File "N");
                ("txt", Dir [("a.txt", File "A"); ("c.txt", File "C")]);
                ("jpg", Dir [("b.jpg", File "B")])])
       [folder_exists; File_moved_successfully;
        folder_exists; File_moved_successfully;
        folder_exists; File_moved_successfully]
       [call_readdir ["app"; "files"];
        call_exists ["app"; "files"];
        call_rename ["app"; "files"; "notes"] ["app"; "files"; "notes"];
        call_exists ["app"; "files"];
        call_rename ["app"; "files"; "txt"] ["app"; "files"; "txt"];
        call_exists ["app"; "files"];
        call_rename ["app"; "files"; "jpg"] ["app"; "files"; "jpg"]]).
Proof. vm_compute. reflexivity. Qed.

(* ===================================================================== *)
(** ** The properties of the organizer *)
(* ===================================================================== *)

Section Properties.

(* ------------------------------------------------------------------- *)

(** C1, as stated, fails: with [b.txt] listed and [txt/b.txt] present,
    the run replaces [txt/b.txt] by the listed file, the listed file is
    gone from its place and the console has no error. *)
Lemma collision_overwrites : ~ collision_is_refused ["app"] disk_collision "b.txt".
Proof.
  unfold collision_is_refused. intros [H _]. vm_compute in H. discriminate.
Qed.

(** C1, amended: when a listed regular file has a category and a regular
    file of the same name is in its folder already, the run moves the
    listed file all the same: afterwards the destination holds the content
    of the listed file and nothing is left at the source.  Whenever the
    callback meets the entry in that situation it writes [folder exists]
    and [File moved successfully!], and no error. *)
Theorem collision_replaces_destination dirname t es n data old :
  let fullPath := path_join dirname "files" in
  let src := path_join fullPath n in
  let dst := path_join (path_join fullPath (extName n)) n in
  lookup fullPath t = Some (Dir es) ->
  Forall valid_name (map fst es) ->
  In n (map fst es) ->
  extName n <> "" ->
  lookup src t = Some (File data) ->
  lookup dst t = Some (File old) ->
  (exists w',
      run dirname t = (Ok tt, w')
      /\ lookup dst (disk w') = Some (File data)
      /\ lookup src (disk w') = None)
  /\ (forall i (w : world node) es0 old0,
        lookup fullPath (disk w) = Some (Dir es0) ->
        lookup src (disk w) = Some (File data) ->
        lookup dst (disk w) = Some (File old0) ->
        exists w',
          each_file fullPath n i w = (Ok tt, w')
          /\ console w' = console w ++ [folder_exists; File_moved_successfully]
          /\ lookup dst (disk w') = Some (File data)
          /\ lookup src (disk w') = None).
Proof.
  intros fullPath src dst Hfp Hv Hin En Hsrc Hdst. subst src dst.
  assert (Hn : valid_name n) by (rewrite Forall_forall in Hv; auto).
  pose proof (valid_name_lacks _ Hn) as Hs.
  rewrite path_join_dest, path_join_name in * by assumption.
  pose proof En as Eb. apply String.eqb_neq in Eb. rewrite Eb in *.
  assert (Hmovable : forall e o,
             assoc n e = Some (File data) -> inside (extName n) n e = Some (File o) ->
             assoc (extName n) e <> None /\ movable n e = true).
  { intros e o H1 H2. rewrite movable_inside, H1, H2.
    apply inside_Some in H2. destruct H2 as [fs [-> _]]. split; [discriminate | reflexivity]. }
  split.
  - destruct (run_entries dirname t es Hfp Hv) as [w' [Hrun Hfp']].
    fold fullPath in Hfp'.
    rewrite (lookup_entry _ _ _ _ Hfp) in Hsrc.
    rewrite (lookup_inside _ _ _ _ _ Hfp) in Hdst.
    destruct (Hmovable es old Hsrc Hdst) as [_ Hmv].
    destruct (moved_run n (File data) (map fst es) es Hs Hv En) as [H1 H2]; [auto|].
    exists w'. split; [assumption|].
    rewrite (lookup_inside _ _ _ _ _ Hfp'), (lookup_entry _ _ _ _ Hfp'). auto.
  - intros i w es0 old0 Hfp0 Hsrc0 Hdst0.
    rewrite (lookup_entry _ _ _ _ Hfp0) in Hsrc0.
    rewrite (lookup_inside _ _ _ _ _ Hfp0) in Hdst0.
    destruct (Hmovable es0 old0 Hsrc0 Hdst0) as [Hx Hmv].
    destruct (each_file_moves fullPath n i w es0 Hn Hfp0 En Hx Hmv)
      as [w' [Hrun [Hcon Hfp']]].
    destruct (entries_step_moves n es0 Hs En Hmv) as [v [Hv0 [H1 H2]]].
    exists w'. split; [assumption|]. split; [assumption|].
    rewrite (lookup_inside _ _ _ _ _ Hfp'), (lookup_entry _ _ _ _ Hfp').
    split; congruence.
Qed.

Lemma collision_replaces_destination_witness :
  exists w',
    run ["app"] disk_collision = (Ok tt, w')
    /\ lookup ["app"; "files"; "txt"; "b.txt"] (disk w') = Some (File "new")
    /\ lookup ["app"; "files"; "b.txt"] (disk w') = None.
Proof.
  apply (collision_replaces_destination ["app"] disk_collision
           [("b.txt", File "new"); ("txt", Dir [("b.txt", File "old")])]
           "b.txt" "new" "old").
  - reflexivity.
  - repeat constructor.
  - simpl. auto.
  - vm_compute. discriminate.
  - reflexivity.
  - reflexivity.
Defined.

(* ------------------------------------------------------------------- *)

(** C2: no listed entry is lost, whichever calls are made to fail.  After
    the run an entry is still at its place (the same regular file, or a
    directory where a directory was), or its place is empty and the very
    node is at [fullPath/extName/name]. *)
Theorem no_entry_lost dirname (d : fdisk) es n :
  let fullPath := path_join dirname "files" in
  lookup fullPath (tree d) = Some (Dir es) ->
  Forall valid_name (map fst es) ->
  In n (map fst es) ->
  exists w',
    run dirname d = (Ok tt, w')
    /\ forall v, lookup (path_join fullPath n) (tree d) = Some v ->
         (exists v', lookup (path_join fullPath n) (tree (disk w')) = Some v' /\ kept v v')
         \/ (lookup (path_join fullPath n) (tree (disk w')) = None
             /\ lookup (path_join (path_join fullPath (extName n)) n) (tree (disk w'))
                = Some v).
Proof.
  intros fullPath Hfp Hv Hin.
  assert (Hn : valid_name n) by (rewrite Forall_forall in Hv; auto).
  pose proof (valid_name_lacks _ Hn) as Hs.
  rewrite path_join_dest, path_join_name by assumption.
  destruct (assoc n es) as [v|] eqn:Hsrc;
    [|apply assoc_In in Hin; contradiction].
  destruct (run_faulty (survives n v) dirname d es) as [w' [es' [Hrun [Hfp' Hsv]]]];
    auto using survives_start.
  { intros m e e' Hm. apply survives_outcome; [assumption|].
    apply valid_name_lacks. rewrite Forall_forall in Hv. auto. }
  fold fullPath in Hfp'.
  exists w'. split; [assumption|]. intros v0.
  rewrite (lookup_entry _ _ _ _ Hfp), Hsrc. intros Hv0. inversion Hv0; subst v0.
  rewrite (lookup_entry _ _ _ _ Hfp').
  unfold survives in Hsv.
  destruct (String.eqb (extName n) ""); [left; exact Hsv|].
  rewrite (lookup_inside _ _ _ _ _ Hfp').
  destruct Hsv as [Hsv|Hsv]; [|right; exact Hsv].
  left. exists v. split; [assumption|]. destruct v; simpl; eauto.
Qed.

Lemma no_entry_lost_witness :
  exists w',
    run ["app"] disk_full = (Ok tt, w')
    /\ forall v,
         lookup (path_join (path_join ["app"] "files") "b.jpg") (tree disk_full) = Some v ->
         (exists v',
             lookup (path_join (path_join ["app"] "files") "b.jpg") (tree (disk w')) = Some v'
             /\ kept v v')
         \/ (lookup (path_join (path_join ["app"] "files") "b.jpg") (tree (disk w')) = None
             /\ lookup (path_join (path_join (path_join ["app"] "files") (extName "b.jpg"))
                          "b.jpg") (tree (disk w')) = Some v).
Proof.
  apply (no_entry_lost ["app"] disk_full
           [("a.txt", File "A"); ("b.jpg", File "B"); ("jpg", Dir [])] "b.jpg").
  - reflexivity.
  - repeat constructor.
  - simpl. auto.
Defined.

(* ------------------------------------------------------------------- *)

(** C3, as stated, fails: [a.TXT], [b.txt] and [c.Txt] do not all have
    the category [txt] (nor any other common category); one run puts them
    in the three folders [TXT], [txt] and [Txt]. *)
Lemma case_is_not_folded :
  ~ grouped_under ["app"] disk_case ["a.TXT"; "b.txt"; "c.Txt"] "txt".
Proof.
  intros H. destruct (H "a.TXT") as [H1 _]; [simpl; auto|].
  vm_compute in H1. discriminate.
Qed.

(** C3, amended: the category is the extension exactly as it is spelled,
    without the dot and with no change of case, for every name
    [stem.ext]; one run moves [a.TXT], [b.txt] and [c.Txt] into the three
    folders [TXT], [txt] and [Txt]. *)
Theorem classification_keeps_case :
  (forall stem ext,
      stem <> "" -> lacks "/"%char stem -> lacks "/"%char ext -> lacks "."%char ext ->
      extName (stem ++ "." ++ ext)%string = ext)
  /\ (exists w',
        run ["app"] disk_case = (Ok tt, w')
        /\ lookup ["app"; "files"; "TXT"; "a.TXT"] (disk w') = Some (File "1")
        /\ lookup ["app"; "files"; "txt"; "b.txt"] (disk w') = Some (File "2")
        /\ lookup ["app"; "files"; "Txt"; "c.Txt"] (disk w') = Some (File "3")).
Proof.
  split.
  - intros stem ext Hne Hs He Hd.
    apply lacks_Forall in Hs, He, Hd. unfold extName.
    rewrite list_ascii_of_string_app. simpl list_ascii_of_string at 2.
    rewrite extname_chars_dotted; auto using Forall_plain.
    destruct stem; [contradiction|]. simpl. apply string_of_list_ascii_of_string.
  - eexists. split; [vm_compute; reflexivity|]. repeat split.
Qed.

Lemma classification_keeps_case_witness : extName ("a" ++ "." ++ "TXT")%string = "TXT".
Proof.
  apply (proj1 classification_keeps_case "a" "TXT").
  - discriminate.
  - apply lacks_decide. reflexivity.
  - apply lacks_decide. reflexivity.
  - apply lacks_decide. reflexivity.
Defined.

(* ------------------------------------------------------------------- *)

(** C4, as stated, fails: [README] has the empty category, not [_noext],
    and one run does not put it in a folder [_noext]. *)
Lemma no_sentinel_category : ~ grouped_under ["app"] disk_readme ["README"] "_noext".
Proof.
  intros H. destruct (H "README") as [H1 _]; [simpl; auto|].
  vm_compute in H1. discriminate.
Qed.

(** C4, amended: a listed regular file whose name has no dot has the
    empty category; the destination the script computes for it is its own
    path, and after one run the file is where it was, with its content. *)
Theorem extensionless_file_stays dirname t es n data :
  let fullPath := path_join dirname "files" in
  lookup fullPath t = Some (Dir es) ->
  Forall valid_name (map fst es) ->
  In n (map fst es) ->
  lacks "."%char n ->
  lookup (path_join fullPath n) t = Some (File data) ->
  exists w',
    run dirname t = (Ok tt, w')
    /\ extName n = ""
    /\ path_join (path_join fullPath (extName n)) n = path_join fullPath n
    /\ lookup (path_join fullPath n) (disk w') = Some (File data).
Proof.
  intros fullPath Hfp Hv Hin Hd Hsrc.
  destruct (run_entries dirname t es Hfp Hv) as [w' [Hrun Hfp']].
  fold fullPath in Hfp'.
  assert (Hn : valid_name n) by (rewrite Forall_forall in Hv; auto).
  pose proof (valid_name_lacks _ Hn) as Hs.
  pose proof (extName_undotted n Hs Hd) as E.
  exists w'. split; [assumption|]. split; [assumption|].
  rewrite path_join_dest, path_join_name in * by assumption.
  rewrite E. split; [reflexivity|].
  rewrite (lookup_entry _ _ _ _ Hfp) in Hsrc.
  rewrite (lookup_entry _ _ _ _ Hfp').
  pose proof (survives_run n (File data) (map fst es) es Hs Hv
                (survives_start _ _ _ Hsrc)) as Hsv.
  unfold survives in Hsv. rewrite E in Hsv. destruct Hsv as [v' [Hv' Hk]].
  simpl in Hk. congruence.
Qed.

Lemma extensionless_file_stays_witness :
  exists w',
    run ["app"] disk_readme = (Ok tt, w')
    /\ extName "README" = ""
    /\ path_join (path_join (path_join ["app"] "files") (extName "README")) "README"
       = path_join (path_join ["app"] "files") "README"
    /\ lookup (path_join (path_join ["app"] "files") "README") (disk w')
       = Some (File "read me").
Proof.
  apply (extensionless_file_stays ["app"] disk_readme [("README", File "read me")]
           "README" "read me").
  - reflexivity.
  - repeat constructor.
  - simpl. auto.
  - apply lacks_decide. reflexivity.
  - reflexivity.
Defined.

(* ------------------------------------------------------------------- *)

(** C5, as stated, fails: the listed directory [photos.old] is classified
    like a file and moved to [old/photos.old]. *)
Lemma directory_is_moved : ~ directory_is_skipped ["app"] disk_dirs "photos.old".
Proof.
  unfold directory_is_skipped. intros H. vm_compute in H. discriminate.
Qed.

(** C5, amended: a listed directory is classified by its name like any
    other entry.  One whose name has no extension is not moved: it is
    still a directory at its place after the run, and it is unchanged when
    no listed name has it as category.  One whose name has an extension is
    moved into the folder of that extension, as a file would be, when
    nothing is at the destination and the folder is not a regular file. *)
Theorem directory_treated_as_entry dirname t es n fs :
  let fullPath := path_join dirname "files" in
  lookup fullPath t = Some (Dir es) ->
  Forall valid_name (map fst es) ->
  In n (map fst es) ->
  lookup (path_join fullPath n) t = Some (Dir fs) ->
  exists w',
    run dirname t = (Ok tt, w')
    /\ (extName n = "" ->
        exists fs',
          lookup (path_join fullPath n) (disk w') = Some (Dir fs')
          /\ ((forall m, In m (map fst es) -> extName m <> n) -> fs' = fs))
    /\ (extName n <> "" ->
        lookup (path_join (path_join fullPath (extName n)) n) t = None ->
        (forall data, lookup (path_join fullPath (extName n)) t <> Some (File data)) ->
        lookup (path_join fullPath n) (disk w') = None
        /\ lookup (path_join (path_join fullPath (extName n)) n) (disk w') = Some (Dir fs)).
Proof.
  intros fullPath Hfp Hv Hin Hsrc.
  destruct (run_entries dirname t es Hfp Hv) as [w' [Hrun Hfp']].
  fold fullPath in Hfp'.
  assert (Hn : valid_name n) by (rewrite Forall_forall in Hv; auto).
  pose proof (valid_name_lacks _ Hn) as Hs.
  rewrite path_join_dest, path_join_category, path_join_name in * by assumption.
  rewrite (lookup_entry _ _ _ _ Hfp) in Hsrc.
  exists w'. split; [assumption|].
  rewrite (lookup_entry _ _ _ _ Hfp'). split.
  - intros E.
    pose proof (survives_run n (Dir fs) (map fst es) es Hs Hv
                  (survives_start _ _ _ Hsrc)) as Hsv.
    unfold survives in Hsv. rewrite E in Hsv.
    destruct Hsv as [v' [Hv' [fs' ->]]]. exists fs'. split; [assumption|].
    intros Hcat.
    pose proof (entry_untouched n (Dir fs) (map fst es) es Hv E Hcat Hsrc).
    congruence.
  - intros E. pose proof E as Eb. apply String.eqb_neq in Eb. rewrite Eb.
    rewrite (lookup_inside _ _ _ _ _ Hfp), (lookup_entry _ _ _ _ Hfp).
    rewrite (lookup_inside _ _ _ _ _ Hfp').
    intros Hfree Hfolder.
    assert (Hmv : movable n es = true).
    { rewrite movable_inside, Hsrc, Hfree.
      destruct (assoc (extName n) es) as [[d|fs0]|]; [|reflexivity|reflexivity].
      exfalso. apply (Hfolder d). reflexivity. }
    apply (moved_run n (Dir fs) (map fst es) es Hs Hv E). auto.
Qed.

Lemma directory_treated_as_entry_witness :
  exists w',
    run ["app"] disk_dirs = (Ok tt, w')
    /\ lookup ["app"; "files"; "photos.old"] (disk w') = None
    /\ lookup ["app"; "files"; "old"; "photos.old"] (disk w')
       = Some (Dir [("p1.jpg", File "P")]).
Proof.
  destruct (directory_treated_as_entry ["app"] disk_dirs
              [("images", Dir [("logo.png", File "L")]);
               ("photos.old", Dir [("p1.jpg", File "P")])]
              "photos.old" [("p1.jpg", File "P")])
    as [w' [Hrun [_ Hmoved]]].
  - reflexivity.
  - repeat constructor.
  - simpl. auto.
  - reflexivity.
  - exists w'. split; [exact Hrun|]. apply Hmoved.
    + vm_compute. discriminate.
    + reflexivity.
    + intros data. vm_compute. discriminate.
Defined.

(* ------------------------------------------------------------------- *)

(** C6, as stated, fails: on the end-to-end scenario the second run
    writes [File moved successfully!] again, for [notes] and for the two
    folders of the first run. *)
Lemma second_run_reports_moves : ~ second_run_reports_no_move ["app"] disk_scenario.
Proof.
  unfold second_run_reports_no_move. intros H. apply H. vm_compute. auto.
Qed.

(** C6, amended: a second run makes no effective move.  It completes and
    leaves the disk exactly as the first run left it.  It skips nothing,
    though: every entry then listed is handled again, and for each one
    without extension, renamed onto itself, the console of the second run
    has [File moved successfully!] again. *)
Theorem second_run_changes_nothing dirname t es :
  let fullPath := path_join dirname "files" in
  lookup fullPath t = Some (Dir es) ->
  Forall valid_name (map fst es) ->
  exists w1 w2,
    run dirname t = (Ok tt, w1)
    /\ run dirname (disk w1) = (Ok tt, w2)
    /\ disk w2 = disk w1
    /\ forall m,
         extName m = "" -> exists_at (fullPath ++ [m]) (disk w1) = true ->
         In File_moved_successfully (console w2).
Proof.
  intros fullPath Hfp Hv.
  destruct (run_entries dirname t es Hfp Hv) as [w1 [Hrun Hfp1]].
  fold fullPath in Hfp1.
  set (es1 := entries_run (map fst es) es) in *.
  destruct (forEach_settled fullPath (map fst es1) 0
              (mkWorld (disk w1) [] [call_readdir fullPath]) es1)
    as [w2 [H2 [Hd2 [_ Hmoved]]]].
  - apply entries_run_valid; assumption.
  - exact Hfp1.
  - intros m Hm. apply run_settled; assumption.
  - exists w1, w2. split; [assumption|]. split; [|split; [exact Hd2|]].
    + rewrite (run_listing dirname (disk w1) (map fst es1)).
      * fold fullPath. rewrite H2. reflexivity.
      * change (@fs_readdir node mem_fs) with readdir. unfold readdir.
        fold fullPath. rewrite Hfp1. reflexivity.
    + intros m E Hex. unfold exists_at in Hex.
      rewrite (lookup_entry _ _ _ _ Hfp1) in Hex.
      assert (Hm : assoc m es1 <> None) by (destruct (assoc m es1); congruence).
      apply (Hmoved m); [apply assoc_In|..]; assumption.
Qed.

Lemma second_run_changes_nothing_witness :
  exists w1 w2,
    run ["app"] disk_scenario = (Ok tt, w1)
    /\ run ["app"] (disk w1) = (Ok tt, w2)
    /\ disk w2 = disk w1
    /\ forall m,
         extName m = "" ->
         exists_at (path_join ["app"] "files" ++ [m]) (disk w1) = true ->
         In File_moved_successfully (console w2).
Proof.
  apply (second_run_changes_nothing ["app"] disk_scenario
           [("a.txt", File "A"); ("b.jpg", File "B"); ("c.txt", File "C");
            ("notes", File "N")]).
  - reflexivity.
  - repeat constructor.
Defined.

(* ------------------------------------------------------------------- *)

(** C7 fails for [mkdirSync]: for every provider, when the folder of the
    first listed entry is missing and [mkdirSync] throws, the error is not
    caught in the callback.  It ends [forEach], the outer handler writes
    it after [Error reading directory:], the disk is as it was, and no
    call at all is made for the entries listed after it. *)
Theorem mkdir_failure_ends_the_batch {FS : Type} `{FileSystem FS}
  dirname (d : FS) file rest err :
  let fullPath := path_join dirname "files" in
  let folder := path_join fullPath (extName file) in
  fs_readdir fullPath d = Ok (file :: rest) ->
  fs_exists folder d = false ->
  fs_mkdir_recursive folder d = Throw err ->
  run dirname d
  = (Ok tt,
     mkWorld d [Error_reading_directory err]
       [call_readdir fullPath; call_exists folder; call_mkdir folder]).
Proof.
  intros fullPath folder Hl Hex Hmk.
  rewrite (run_listing dirname d (file :: rest) Hl). fold fullPath.
  cbn [forEach_from]. unfold bind. rewrite each_file_run. cbv zeta. fold folder.
  cbn [disk console calls]. rewrite Hex, Hmk. reflexivity.
Qed.

(** The failing input: the device is full, [a.txt] needs the new folder
    [txt] while the folder [jpg] of [b.jpg] exists; [b.jpg] is never
    looked at. *)
Lemma mkdir_failure_ends_the_batch_witness :
  run ["app"] disk_full
  = (Ok tt,
     mkWorld disk_full
       [Error_reading_directory ENOSPC]
       [call_readdir ["app"; "files"];
        call_exists ["app"; "files"; "txt"];
        call_mkdir ["app"; "files"; "txt"]]).
Proof.
  apply (mkdir_failure_ends_the_batch ["app"] disk_full "a.txt" ["b.jpg"; "jpg"] ENOSPC).
  - reflexivity.
  - reflexivity.
  - reflexivity.
Defined.

(* ------------------------------------------------------------------- *)

(** C8, as stated, fails: when [/app/files] does not exist the script
    ends normally; the error does not reach the caller. *)
Lemma failure_is_swallowed : ~ failure_reaches_caller ["app"] disk_missing.
Proof.
  intros H. specialize (H ENOENT eq_refl). vm_compute in H. discriminate.
Qed.

(** C8, amended: when the directory cannot be listed, for any provider,
    the error of [readdirSync] is caught by the outer handler and written
    to the console after [Error reading directory:]; the script ends
    normally, no entry is processed (the only call made is the listing)
    and the disk is as it was. *)
Theorem unlistable_directory_is_reported {FS : Type} `{FileSystem FS}
  dirname (d : FS) err :
  fs_readdir (path_join dirname "files") d = Throw err ->
  run dirname d
  = (Ok tt,
     mkWorld d [Error_reading_directory err]
       [call_readdir (path_join dirname "files")]).
Proof. apply run_unlistable. Qed.

Lemma unlistable_directory_is_reported_witness :
  run ["app"] disk_missing
  = (Ok tt,
     mkWorld disk_missing [Error_reading_directory ENOENT]
       [call_readdir (path_join ["app"] "files")]).
Proof.
  apply (unlistable_directory_is_reported ["app"] disk_missing ENOENT).
  reflexivity.
Defined.

(* ------------------------------------------------------------------- *)

(** C9: on every name without a slash, [extName] is the text after the
    last dot of the name, and it is empty when the name has no dot or has
    its only dot in front. *)
Theorem extName_is_after_last_dot n :
  lacks "/"%char n -> extName n = after_last_dot n.
Proof. apply extName_after_last_dot. Qed.

Lemma extName_is_after_last_dot_witness :
  extName "archive.tar.gz" = after_last_dot "archive.tar.gz"
  /\ after_last_dot "archive.tar.gz" = "gz"
  /\ after_last_dot ".gitignore" = ""
  /\ after_last_dot "README" = "".
Proof.
  split; [|repeat split].
  apply (extName_is_after_last_dot "archive.tar.gz").
  apply lacks_decide. reflexivity.
Defined.

(* ------------------------------------------------------------------- *)

(** C10: every call the run makes stays inside the listed directory.  The
    listing is of [fullPath]; the folder looked for is [fullPath] or
    [fullPath/extName]; a folder is only created at [fullPath/extName],
    one level down; an entry [fullPath/name] is renamed to
    [fullPath/extName/name], or onto itself when it has no category. *)
Theorem calls_stay_inside dirname t es :
  let fullPath := path_join dirname "files" in
  lookup fullPath t = Some (Dir es) ->
  Forall valid_name (map fst es) ->
  exists w',
    run dirname t = (Ok tt, w')
    /\ Forall (fun c =>
                 call_inside fullPath c
                 /\ (c = call_readdir fullPath
                     \/ exists n, In n (map fst es) /\ call_of_entry fullPath n c))
              (calls w').
Proof.
  intros fullPath Hfp Hv.
  destruct (run_entries dirname t es Hfp Hv) as [w' [Hrun _]].
  exists w'. split; [assumption|].
  assert (Hl : @fs_readdir node mem_fs fullPath t = Ok (map fst es)).
  { change (@fs_readdir node mem_fs) with readdir. unfold readdir.
    rewrite Hfp. reflexivity. }
  rewrite (run_listing dirname t (map fst es) Hl) in Hrun. fold fullPath in Hrun.
  destruct (forEach_calls fullPath (map fst es) 0
              (mkWorld t [] [call_readdir fullPath]) es Hv Hfp) as [cs [Hcs Hall]].
  assert (Hcalls : calls w' = call_readdir fullPath :: cs).
  { destruct (forEach_from 0 (map fst es) _ _) as [[a|err] w0];
      inversion Hrun; subst; cbn [snd calls] in *; exact Hcs. }
  rewrite Hcalls. constructor.
  - split; [apply is_prefix_refl | left; reflexivity].
  - eapply Forall_impl; [|exact Hall]. intros c [n [Hn Hc]].
    split; [eapply call_of_entry_inside; eassumption | right; eauto].
Qed.

Lemma calls_stay_inside_witness :
  exists w',
    run ["app"] disk_scenario = (Ok tt, w')
    /\ Forall (fun c =>
                 call_inside (path_join ["app"] "files") c
                 /\ (c = call_readdir (path_join ["app"] "files")
                     \/ exists n,
                          In n (map fst [("a.txt", File "A"); ("b.jpg", File "B");
                                         ("c.txt", File "C"); ("notes", File "N")])
                          /\ call_of_entry (path_join ["app"] "files") n c))
              (calls w').
Proof.
  apply (calls_stay_inside ["app"] disk_scenario
           [("a.txt", File "A"); ("b.jpg", File "B"); ("c.txt", File "C");
            ("notes", File "N")]).
  - reflexivity.
  - repeat constructor.
Defined.

End Properties.

(* ===================================================================== *)
(** ** Further properties of the script *)
(* ===================================================================== *)

Section Grouping.

Lemma distinct_In x l : In x (distinct l) <-> In x l.
Proof.
  induction l as [|a l IH]; simpl; [tauto|].
  rewrite filter_In, IH, negb_true_iff, String.eqb_neq.
  destruct (string_dec a x); [subst; tauto|]. tauto.
Qed.

Lemma distinct_NoDup l : NoDup (distinct l).
Proof.
  induction l as [|a l IH]; simpl; constructor.
  - rewrite filter_In, String.eqb_refl. simpl. intros [_ H]. discriminate.
  - apply NoDup_filter. assumption.
Qed.

Lemma distinct_snoc l x :
  distinct (l ++ [x]) = if in_dec string_dec x l then distinct l else distinct l ++ [x].
Proof.
  induction l as [|a l IH]; simpl; [reflexivity|].
  rewrite IH. destruct (in_dec string_dec x l) as [Hin|Hin].
  - destruct (string_dec a x); reflexivity.
  - rewrite filter_app. simpl.
    destruct (string_dec a x) as [->|Hne].
    + rewrite String.eqb_refl. simpl. rewrite app_nil_r. reflexivity.
    + apply String.eqb_neq in Hne. rewrite Hne. reflexivity.
Qed.

Lemma assoc_app k a b :
  assoc k (a ++ b) = match assoc k a with Some v => Some v | None => assoc k b end.
Proof.
  induction a as [|[k0 v0] a IH]; simpl; [reflexivity|].
  destruct (String.eqb k k0); [reflexivity | exact IH].
Qed.

Lemma assoc_notin k es : ~ In k (map fst es) -> assoc k es = None.
Proof.
  intros H. destruct (assoc k es) eqn:E; [|reflexivity].
  exfalso. apply H. apply assoc_In. congruence.
Qed.

Lemma unbind_notin k es : ~ In k (map fst es) -> unbind_entry k es = es.
Proof.
  induction es as [|[k0 v0] es IH]; simpl; intros H; [reflexivity|].
  destruct (String.eqb_spec k k0); [exfalso; auto|].
  simpl. rewrite IH; auto.
Qed.

Lemma unbind_app k a b : unbind_entry k (a ++ b) = unbind_entry k a ++ unbind_entry k b.
Proof. apply filter_app. Qed.

Lemma bind_notin k v es : ~ In k (map fst es) -> bind_entry k v es = es ++ [(k, v)].
Proof.
  induction es as [|[k0 v0] es IH]; simpl; intros H; [reflexivity|].
  destruct (String.eqb_spec k k0); [exfalso; auto|].
  rewrite IH; auto.
Qed.

Lemma bind_app_right k v a b :
  ~ In k (map fst a) -> bind_entry k v (a ++ b) = a ++ bind_entry k v b.
Proof.
  induction a as [|[k0 v0] a IH]; simpl; intros H; [reflexivity|].
  destruct (String.eqb_spec k k0); [exfalso; auto|].
  rewrite IH; auto.
Qed.

(** Rebinding one key of a keyed table. *)
Lemma bind_map (g g' : string -> node) x l :
  NoDup l -> In x l -> (forall y, y <> x -> g' y = g y) ->
  bind_entry x (g' x) (map (fun y => (y, g y)) l) = map (fun y => (y, g' y)) l.
Proof.
  intros Hnd Hin Hg. induction l as [|a l IH]; [destruct Hin|].
  inversion Hnd as [|? ? Ha Hl]; subst. simpl.
  destruct (String.eqb_spec x a) as [->|Hne].
  - f_equal. apply map_ext_in. intros y Hy. rewrite Hg; [reflexivity|].
    intros ->. contradiction.
  - destruct Hin as [->|Hin]; [congruence|].
    rewrite (Hg a) by congruence. rewrite IH by assumption. reflexivity.
Qed.

Lemma assoc_map (g : string -> node) x l :
  assoc x (map (fun y => (y, g y)) l) = if in_dec string_dec x l then Some (g x) else None.
Proof.
  induction l as [|a l IH]; simpl; [reflexivity|].
  destruct (String.eqb_spec x a) as [->|Hne].
  - destruct (string_dec a a); [reflexivity | congruence].
  - rewrite IH. destruct (string_dec a x); [congruence|].
    destruct (in_dec string_dec x l); reflexivity.
Qed.

Lemma names_folders es : map fst (folders es) = extensions es.
Proof. unfold folders. rewrite map_map. simpl. apply map_id. Qed.

Lemma extensions_In x es :
  In x (extensions es) <-> exists e, In e es /\ extName (fst e) = x /\ x <> "".
Proof.
  unfold extensions. rewrite distinct_In, in_map_iff. split.
  - intros [e [He Hin]]. apply filter_In in Hin. destruct Hin as [Hin Hx].
    exists e. unfold has_ext in Hx. rewrite negb_true_iff, String.eqb_neq in Hx.
    subst x. auto.
  - intros [e [Hin [He Hx]]]. exists e. split; [assumption|].
    apply filter_In. split; [assumption|]. unfold has_ext.
    rewrite negb_true_iff, String.eqb_neq. congruence.
Qed.

Lemma names_filter (f : string * node -> bool) es k :
  In k (map fst (filter f es)) -> In k (map fst es).
Proof.
  rewrite !in_map_iff. intros [e [He Hin]]. apply filter_In in Hin.
  exists e. tauto.
Qed.

Lemma filter_none (f : string * node -> bool) es :
  (forall e, In e es -> f e = false) -> filter f es = [].
Proof.
  induction es as [|e es IH]; simpl; intros H; [reflexivity|].
  rewrite (H e) by auto. apply IH. auto.
Qed.

(** Movable entries are moved, as an equation on the entries. *)
Lemma entries_step_moved_eq m es :
  lacks "/"%char m -> extName m <> "" -> movable m es = true ->
  exists v fs,
    assoc m es = Some v
    /\ assoc (extName m) (with_folder (extName m) es) = Some (Dir fs)
    /\ entries_step m es
       = bind_entry (extName m) (Dir (bind_entry m v fs))
           (unbind_entry m (with_folder (extName m) es)).
Proof.
  intros Hs E Hmv. pose proof (name_neq_category m Hs E) as Hne.
  destruct (entries_step_cases m es Hs E) as [[_ [err H]]|[v [fs [Hm [Hx [_ Heq]]]]]].
  - rewrite <- movable_with_folder in Hmv by assumption.
    pose proof (rename_movable m _ Hs E (assoc_with_folder_same _ es)) as Hr.
    rewrite Hmv in Hr. destruct Hr as [t' Hr]. congruence.
  - exists v, fs. rewrite assoc_with_folder_other in Hm by assumption. auto.
Qed.


Lemma unsorted_snoc done e :
  unsorted (done ++ [e]) = if has_ext e then unsorted done else unsorted done ++ [e].
Proof.
  unfold unsorted. rewrite filter_app. simpl.
  destruct (has_ext e); simpl; [apply app_nil_r | reflexivity].
Qed.

Lemma filter_ext_snoc y done e :
  filter (ext_is y) (done ++ [e])
  = filter (ext_is y) done ++ (if ext_is y e then [e] else []).
Proof. rewrite filter_app. simpl. destruct (ext_is y e); reflexivity. Qed.

Lemma extensions_snoc done e :
  has_ext e = true ->
  extensions (done ++ [e])
  = if in_dec string_dec (extName (fst e)) (extensions done)
    then extensions done
    else extensions done ++ [extName (fst e)].
Proof.
  intros He. unfold extensions. rewrite filter_app. simpl. rewrite He.
  rewrite map_app. simpl. rewrite distinct_snoc.
  destruct (in_dec string_dec _ (map _ (filter has_ext done))) as [H|H];
    destruct (in_dec string_dec _ (distinct _)) as [H'|H']; try reflexivity;
    exfalso; rewrite distinct_In in H'; contradiction.
Qed.

Lemma folders_unchanged done e :
  has_ext e = false -> folders (done ++ [e]) = folders done.
Proof.
  intros He. unfold folders, extensions. rewrite filter_app. simpl. rewrite He.
  rewrite app_nil_r. apply map_ext_in. intros y Hy.
  rewrite filter_ext_snoc.
  assert (Hne : ext_is y e = false).
  { apply distinct_In, in_map_iff in Hy. destruct Hy as [e' [<- He']].
    apply filter_In in He'. destruct He' as [_ He'].
    unfold has_ext in He, He'. unfold ext_is.
    rewrite negb_false_iff, String.eqb_eq in He.
    rewrite negb_true_iff in He'. rewrite He, String.eqb_sym. exact He'. }
  rewrite Hne, app_nil_r. reflexivity.
Qed.

(** The folders after one more entry with an extension. *)
Lemma folders_snoc done e :
  has_ext e = true ->
  folders (done ++ [e])
  = if in_dec string_dec (extName (fst e)) (extensions done)
    then bind_entry (extName (fst e))
           (Dir (filter (ext_is (extName (fst e))) done ++ [e])) (folders done)
    else folders done ++ [(extName (fst e), Dir [e])].
Proof.
  intros He. unfold folders at 1. rewrite (extensions_snoc done e He).
  set (x := extName (fst e)).
  assert (Hx : ext_is x e = true) by (unfold ext_is; apply String.eqb_refl).
  assert (Hother : forall y, y <> x ->
             Dir (filter (ext_is y) (done ++ [e])) = Dir (filter (ext_is y) done)).
  { intros y Hy. rewrite filter_ext_snoc.
    assert (ext_is y e = false) as -> by (unfold ext_is; fold x; apply String.eqb_neq; congruence).
    rewrite app_nil_r. reflexivity. }
  destruct (in_dec string_dec x (extensions done)) as [Hin|Hin].
  - unfold folders.
    rewrite <- (bind_map (fun y => Dir (filter (ext_is y) done))
                  (fun y => Dir (filter (ext_is y) (done ++ [e]))) x (extensions done));
      auto; [|apply distinct_NoDup].
    rewrite filter_ext_snoc, Hx. reflexivity.
  - rewrite map_app. simpl. rewrite filter_ext_snoc, Hx.
    rewrite (filter_none (ext_is x) done).
    + simpl. f_equal. apply map_ext_in. intros y Hy. rewrite Hother; [reflexivity|].
      intros ->. contradiction.
    + intros e' He'. destruct (ext_is x e') eqn:E; [|reflexivity].
      exfalso. apply Hin. apply extensions_In. exists e'.
      unfold ext_is in E. apply String.eqb_eq in E.
      unfold has_ext in He. rewrite negb_true_iff, String.eqb_neq in He.
      repeat split; auto.
Qed.


(** The callback on the next regular file, when the files before it are
    grouped already. *)
Lemma grouping_step done n data rest :
  Forall valid_name (map fst (done ++ (n, File data) :: rest)) ->
  NoDup (map fst (done ++ (n, File data) :: rest)) ->
  no_name_is_extension (done ++ (n, File data) :: rest) ->
  entries_step n (unsorted done ++ (n, File data) :: rest ++ folders done)
  = unsorted (done ++ [(n, File data)]) ++ rest ++ folders (done ++ [(n, File data)]).
Proof.
  intros Hv Hnd Hne.
  set (e := (n, File data)) in *.
  assert (Hn : valid_name n).
  { rewrite Forall_forall in Hv. apply Hv. rewrite map_app. apply in_or_app.
    right. left. reflexivity. }
  pose proof (valid_name_lacks _ Hn) as Hs.
  rewrite unsorted_snoc.
  destruct (String.eqb_spec (extName n) "") as [E|E].
  - rewrite entries_step_nocat by assumption.
    assert (He : has_ext e = false)
      by (unfold has_ext; simpl; rewrite E; reflexivity).
    rewrite He, folders_unchanged by assumption.
    rewrite <- app_assoc. reflexivity.
  - assert (He : has_ext e = true)
      by (unfold has_ext; simpl; apply negb_true_iff, String.eqb_neq; assumption).
    rewrite He, folders_snoc by assumption. simpl fst.
    set (x := extName n) in *.
    (* where the names are *)
    rewrite map_app in Hnd. simpl in Hnd.
    pose proof (NoDup_remove_2 _ _ _ Hnd) as Hfresh.
    assert (HnD : ~ In n (map fst done)) by (intros H; apply Hfresh, in_or_app; auto).
    assert (HnR : ~ In n (map fst rest)) by (intros H; apply Hfresh, in_or_app; auto).
    assert (Hall : forall k, In k (map fst (done ++ e :: rest)) <->
                             In k (map fst done) \/ k = n \/ In k (map fst rest)).
    { intros k. rewrite map_app, in_app_iff. simpl. intuition congruence. }
    assert (HxAll : ~ In x (map fst (done ++ e :: rest))).
    { intros H. apply (Hne x n); [assumption | apply Hall; auto | reflexivity]. }
    assert (HxD : ~ In x (map fst done)) by (intros H; apply HxAll, Hall; auto).
    assert (HxR : ~ In x (map fst rest)) by (intros H; apply HxAll, Hall; auto).
    assert (Hxn : n <> x) by (intros H; apply HxAll, Hall; auto).
    assert (HnA : ~ In n (map fst (unsorted done)))
      by (intros H; apply HnD; eapply names_filter; eassumption).
    assert (HxA : ~ In x (map fst (unsorted done)))
      by (intros H; apply HxD; eapply names_filter; eassumption).
    assert (HnG : ~ In n (map fst (folders done))).
    { rewrite names_folders. intros H. apply extensions_In in H.
      destruct H as [e' [He' [Hx' _]]].
      apply (Hne n (fst e')); [apply Hall; auto | | congruence].
      apply Hall. left. apply in_map. assumption. }
    assert (HnF : forall y, ~ In n (map fst (filter (ext_is y) done)))
      by (intros y H; apply HnD; eapply names_filter; eassumption).
    (* what the callback finds *)
    set (cur := unsorted done ++ e :: rest ++ folders done).
    assert (Hsrc : assoc n cur = Some (File data)).
    { unfold cur. rewrite assoc_app, (assoc_notin n _ HnA). simpl.
      rewrite String.eqb_refl. reflexivity. }
    assert (Hfold : assoc x cur = assoc x (folders done)).
    { unfold cur. rewrite assoc_app, (assoc_notin x _ HxA). simpl.
      assert ((x =? n) = false) as -> by (apply String.eqb_neq; congruence).
      rewrite assoc_app, (assoc_notin x _ HxR). reflexivity. }
    assert (Hunbind : forall tail, ~ In n (map fst tail) ->
              unbind_entry n (unsorted done ++ e :: rest ++ tail)
              = unsorted done ++ rest ++ tail).
    { intros tail Ht. rewrite unbind_app, (unbind_notin n _ HnA). f_equal.
      unfold unbind_entry at 1. simpl. rewrite String.eqb_refl. simpl.
      fold (unbind_entry n (rest ++ tail)).
      rewrite unbind_app, (unbind_notin n _ HnR), (unbind_notin n _ Ht). reflexivity. }
    assert (Hbind : forall w tail,
              bind_entry x w (unsorted done ++ rest ++ tail)
              = unsorted done ++ rest ++ bind_entry x w tail).
    { intros w tail. rewrite !bind_app_right by assumption. reflexivity. }
    unfold folders in Hfold. rewrite assoc_map in Hfold. fold (folders done) in Hfold.
    destruct (in_dec string_dec x (extensions done)) as [Hin|Hin].
    + assert (Hmv : movable n cur = true).
      { unfold movable. fold x. rewrite Hsrc, Hfold, (assoc_notin n _ (HnF x)). reflexivity. }
      destruct (entries_step_moved_eq n cur Hs E Hmv) as [v [fs [Hv0 [Hfs Heq]]]].
      fold x in Hfs, Heq.
      rewrite with_folder_idem in Hfs, Heq by congruence.
      rewrite Hsrc in Hv0. inversion Hv0; subst v.
      rewrite Hfold in Hfs. inversion Hfs; subst fs.
      rewrite Heq. unfold cur. rewrite Hunbind by assumption.
      rewrite Hbind. rewrite (bind_notin n _ _ (HnF x)). reflexivity.
    + assert (Hmv : movable n cur = true).
      { unfold movable. fold x. rewrite Hsrc, Hfold. reflexivity. }
      destruct (entries_step_moved_eq n cur Hs E Hmv) as [v [fs [Hv0 [Hfs Heq]]]].
      fold x in Hfs, Heq.
      assert (Hnew : with_folder x cur
                     = unsorted done ++ e :: rest ++ (folders done ++ [(x, Dir [])])).
      { unfold with_folder. rewrite Hfold. unfold cur.
        rewrite bind_app_right by assumption. f_equal. simpl.
        assert ((x =? n) = false) as -> by (apply String.eqb_neq; congruence).
        f_equal. rewrite bind_app_right by assumption.
        rewrite bind_notin by (rewrite names_folders; assumption). reflexivity. }
      rewrite Hnew in Hfs, Heq.
      rewrite Hsrc in Hv0. inversion Hv0; subst v.
      assert (HxG : ~ In x (map fst (folders done)))
        by (rewrite names_folders; assumption).
      rewrite assoc_app, (assoc_notin x _ HxA) in Hfs. simpl in Hfs.
      assert ((x =? n) = false) as Hb by (apply String.eqb_neq; congruence).
      rewrite Hb, assoc_app, (assoc_notin x _ HxR), assoc_app, (assoc_notin x _ HxG) in Hfs.
      simpl in Hfs. rewrite String.eqb_refl in Hfs. inversion Hfs; subst fs.
      rewrite Heq, Hunbind, Hbind.
      * rewrite bind_app_right by assumption. simpl. rewrite String.eqb_refl. reflexivity.
      * rewrite map_app, in_app_iff. simpl. intuition congruence.
Qed.


Lemma grouping_run rest : forall done,
  Forall valid_name (map fst (done ++ rest)) ->
  NoDup (map fst (done ++ rest)) ->
  regular_files (done ++ rest) ->
  no_name_is_extension (done ++ rest) ->
  entries_run (map fst rest) (unsorted done ++ rest ++ folders done)
  = grouped (done ++ rest).
Proof.
  induction rest as [|[n v] rest IH]; intros done Hv Hnd Hreg Hne.
  - simpl. rewrite app_nil_r. reflexivity.
  - assert (Hfile : exists data, v = File data).
    { unfold regular_files in Hreg. rewrite Forall_forall in Hreg.
      apply (Hreg (n, v)). apply in_or_app. right. left. reflexivity. }
    destruct Hfile as [data ->]. simpl.
    change (fold_left (fun es file => entries_step file es) (map fst rest) ?e)
      with (entries_run (map fst rest) e).
    rewrite grouping_step by assumption.
    replace (done ++ (n, File data) :: rest) with ((done ++ [(n, File data)]) ++ rest) in *
      by (rewrite <- app_assoc; reflexivity).
    apply IH; assumption.
Qed.

(** X1: on a directory that holds only regular files, with distinct names
    none of which is the extension of another, the run groups by
    extension: the files without extension stay where they are, in their
    order, and after them the directory lists one folder for each
    extension, in the order the extensions first appear, holding exactly
    the files of that extension in the order of the listing. *)
Theorem run_groups_by_extension dirname t es :
  let fullPath := path_join dirname "files" in
  lookup fullPath t = Some (Dir es) ->
  Forall valid_name (map fst es) ->
  NoDup (map fst es) ->
  regular_files es ->
  no_name_is_extension es ->
  exists w',
    run dirname t = (Ok tt, w')
    /\ lookup fullPath (disk w') = Some (Dir (grouped es)).
Proof.
  intros fullPath Hfp Hv Hnd Hreg Hne.
  destruct (run_entries dirname t es Hfp Hv) as [w' [Hrun Hfp']].
  exists w'. split; [assumption|]. fold fullPath in Hfp'. rewrite Hfp'.
  pose proof (grouping_run es [] Hv Hnd Hreg Hne) as H.
  simpl in H. rewrite app_nil_r in H. rewrite H. reflexivity.
Qed.


Lemma distinct_names_NoDup l : distinct_names l = true -> NoDup l.
Proof.
  induction l as [|x l IH]; simpl; intros H; constructor;
    apply andb_true_iff in H; destruct H as [H1 H2]; [|auto].
  intros Hin. apply negb_true_iff in H1.
  assert (existsb (String.eqb x) l = true)
    by (apply existsb_exists; exists x; split; [assumption | apply String.eqb_refl]).
  congruence.
Qed.

Lemma regular_filesb_spec es : regular_filesb es = true -> regular_files es.
Proof.
  unfold regular_filesb, regular_files. rewrite forallb_forall, Forall_forall.
  intros H e He. specialize (H e He). destruct (snd e); [eauto | discriminate].
Qed.

Lemma no_name_is_extensionb_spec es :
  no_name_is_extensionb es = true -> no_name_is_extension es.
Proof.
  unfold no_name_is_extensionb, no_name_is_extension. rewrite forallb_forall.
  intros H n m Hn Hm. specialize (H n Hn). rewrite forallb_forall in H.
  specialize (H m Hm). apply negb_true_iff, String.eqb_neq in H. exact H.
Qed.

Lemma Forall_valid_nameb l : forallb valid_nameb l = true -> Forall valid_name l.
Proof. rewrite forallb_forall, Forall_forall. auto. Qed.

Lemma run_groups_by_extension_witness :
  exists w',
    run ["app"] disk_scenario = (Ok tt, w')
    /\ lookup (path_join ["app"] "files") (disk w')
       = Some (Dir [("notes", File "N");
                    ("txt", Dir [("a.txt", File "A"); ("c.txt", File "C")]);
                    ("jpg", Dir [("b.jpg", File "B")])]).
Proof.
  apply (run_groups_by_extension ["app"] disk_scenario
           [("a.txt", File "A"); ("b.jpg", File "B"); ("c.txt", File "C");
            ("notes", File "N")]).
  - reflexivity.
  - apply Forall_valid_nameb. reflexivity.
  - apply distinct_names_NoDup. reflexivity.
  - apply regular_filesb_spec. reflexivity.
  - apply no_name_is_extensionb_spec. reflexivity.
Defined.

End Grouping.

Section Reaching.

(** X2: a listed regular file with an extension ends in the folder of its
    extension whenever that folder is not a regular file and no directory
    has its name there: after the run the folder is a directory, the file
    is in it with its content, and nothing is left at its old path.  The
    folder is created when it is missing. *)
Theorem file_reaches_its_folder dirname t es n data :
  let fullPath := path_join dirname "files" in
  let folder := path_join fullPath (extName n) in
  lookup fullPath t = Some (Dir es) ->
  Forall valid_name (map fst es) ->
  In n (map fst es) ->
  extName n <> "" ->
  lookup (path_join fullPath n) t = Some (File data) ->
  (forall d, lookup folder t <> Some (File d)) ->
  (forall fs, lookup (path_join folder n) t <> Some (Dir fs)) ->
  exists w',
    run dirname t = (Ok tt, w')
    /\ (exists fs, lookup folder (disk w') = Some (Dir fs))
    /\ lookup (path_join folder n) (disk w') = Some (File data)
    /\ lookup (path_join fullPath n) (disk w') = None.
Proof.
  intros fullPath folder Hfp Hv Hin En Hsrc Hfolder Hdst. subst folder.
  assert (Hn : valid_name n) by (rewrite Forall_forall in Hv; auto).
  pose proof (valid_name_lacks _ Hn) as Hs.
  rewrite path_join_dest, path_join_name in * by assumption.
  rewrite path_join_category in * by assumption.
  pose proof En as Eb. apply String.eqb_neq in Eb. rewrite Eb in *.
  destruct (run_entries dirname t es Hfp Hv) as [w' [Hrun Hfp']].
  fold fullPath in Hfp'.
  rewrite (lookup_entry _ _ _ n Hfp) in Hsrc.
  rewrite (lookup_entry _ _ _ (extName n) Hfp) in Hfolder.
  rewrite (lookup_inside _ _ _ _ _ Hfp) in Hdst.
  assert (Hmv : movable n es = true).
  { rewrite movable_inside, Hsrc.
    destruct (assoc (extName n) es) as [[d|fs]|] eqn:Ex.
    - exfalso. apply (Hfolder d). reflexivity.
    - destruct (inside (extName n) n es) as [[d|fs']|]; try reflexivity.
      exfalso. apply (Hdst fs'). reflexivity.
    - destruct (inside (extName n) n es) as [[d|fs']|]; try reflexivity.
      exfalso. apply (Hdst fs'). reflexivity. }
  destruct (moved_run n (File data) (map fst es) es Hs Hv En) as [H1 H2]; [auto|].
  exists w'. split; [assumption|].
  rewrite (lookup_inside _ _ _ _ _ Hfp'), !(lookup_entry _ _ _ _ Hfp').
  rewrite path_join_name, (lookup_entry _ _ _ _ Hfp') by assumption.
  split; [|auto].
  apply inside_Some in H2. destruct H2 as [fs [H2 _]]. eauto.
Qed.

Lemma file_reaches_its_folder_witness :
  exists w',
    run ["app"] disk_scenario = (Ok tt, w')
    /\ (exists fs, lookup ["app"; "files"; "jpg"] (disk w') = Some (Dir fs))
    /\ lookup ["app"; "files"; "jpg"; "b.jpg"] (disk w') = Some (File "B")
    /\ lookup ["app"; "files"; "b.jpg"] (disk w') = None.
Proof.
  apply (file_reaches_its_folder ["app"] disk_scenario
           [("a.txt", File "A"); ("b.jpg", File "B"); ("c.txt", File "C");
            ("notes", File "N")] "b.jpg" "B").
  - reflexivity.
  - apply Forall_valid_nameb. reflexivity.
  - simpl. auto.
  - vm_compute. discriminate.
  - reflexivity.
  - intros d. vm_compute. discriminate.
  - intros fs. vm_compute. discriminate.
Defined.

Lemma inside_kept_step x k v m es :
  lacks "/"%char m -> extName x = "" -> (extName m = x -> k <> m) ->
  inside x k es = Some v -> inside x k (entries_step m es) = Some v.
Proof.
  intros Hm Ex Hk H.
  destruct (String.eqb_spec x m) as [->|Hxm];
    [rewrite entries_step_nocat; assumption|].
  rewrite entries_step_inside; auto.
  destruct (String.eqb_spec x (extName m)) as [->|Hne]; [right|left]; auto.
Qed.

(** X3: what a folder holds already is kept.  An entry [k] of a top-level
    directory [x] without extension is still there, unchanged, after the
    run, unless [k] is the name of a listed entry of extension [x] (which
    is then moved onto it). *)
Theorem folder_content_is_kept dirname t es x k v :
  let fullPath := path_join dirname "files" in
  lookup fullPath t = Some (Dir es) ->
  Forall valid_name (map fst es) ->
  extName x = "" ->
  (In k (map fst es) -> extName k <> x) ->
  lookup (fullPath ++ [x; k]) t = Some v ->
  exists w',
    run dirname t = (Ok tt, w')
    /\ lookup (fullPath ++ [x; k]) (disk w') = Some v.
Proof.
  intros fullPath Hfp Hv Ex Hk Hin.
  destruct (run_entries dirname t es Hfp Hv) as [w' [Hrun Hfp']].
  fold fullPath in Hfp'.
  exists w'. split; [assumption|].
  rewrite (lookup_inside _ _ _ _ _ Hfp) in Hin.
  rewrite (lookup_inside _ _ _ _ _ Hfp').
  apply (entries_run_invariant (fun e => inside x k e = Some v)); [|assumption].
  intros m e Hm He. apply inside_kept_step; auto.
  - apply valid_name_lacks. rewrite Forall_forall in Hv. auto.
  - intros Em ->. apply Hk; assumption.
Qed.

Lemma folder_content_is_kept_witness :
  exists w',
    run ["app"] disk_dirs = (Ok tt, w')
    /\ lookup (path_join ["app"] "files" ++ ["images"; "logo.png"]) (disk w')
       = Some (File "L").
Proof.
  apply (folder_content_is_kept ["app"] disk_dirs
           [("images", Dir [("logo.png", File "L")]);
            ("photos.old", Dir [("p1.jpg", File "P")])] "images" "logo.png" (File "L")).
  - reflexivity.
  - apply Forall_valid_nameb. reflexivity.
  - reflexivity.
  - intros _. vm_compute. discriminate.
  - reflexivity.
Defined.

(** The names listed after the callback were listed before, or are the
    extension of the entry. *)
Lemma entries_step_names k m es :
  lacks "/"%char m ->
  assoc k (entries_step m es) <> None ->
  assoc k es <> None \/ (extName m <> "" /\ k = extName m).
Proof.
  intros Hm H.
  destruct (String.eqb_spec (extName m) "") as [Em|Em];
    [rewrite entries_step_nocat in H by assumption; auto|].
  destruct (String.eqb_spec k (extName m)) as [->|Hkx]; [auto|].
  destruct (String.eqb_spec k m) as [->|Hkm].
  - destruct (entries_step_self m es Hm Em) as [[H1 _]|[v [H1 _]]];
      left; congruence.
  - rewrite entries_step_other in H by assumption. auto.
Qed.

Lemma entries_run_names k l : forall es,
  Forall valid_name l ->
  assoc k (entries_run l es) <> None ->
  assoc k es <> None \/ exists m, In m l /\ extName m <> "" /\ k = extName m.
Proof.
  induction l as [|m l IH]; intros es Hl H; [auto|].
  inversion Hl as [|? ? Hm Hl']; subst. simpl in H.
  destruct (IH _ Hl' H) as [H1|[m' [Hin Hm']]].
  - destruct (entries_step_names k m es (valid_name_lacks _ Hm) H1) as [H2|H2]; [auto|].
    right. exists m. simpl. auto.
  - right. exists m'. simpl. auto.
Qed.

(** X4: the run creates nothing but extension folders.  Every name the
    directory lists after the run was listed before or is the extension
    of a name listed before; and for every listed name with an extension,
    that extension is listed after the run. *)
Theorem only_extension_folders_appear dirname t es :
  let fullPath := path_join dirname "files" in
  lookup fullPath t = Some (Dir es) ->
  Forall valid_name (map fst es) ->
  exists w' es',
    run dirname t = (Ok tt, w')
    /\ lookup fullPath (disk w') = Some (Dir es')
    /\ (forall k, In k (map fst es') ->
          In k (map fst es)
          \/ exists m, In m (map fst es) /\ extName m <> "" /\ k = extName m)
    /\ (forall m, In m (map fst es) -> extName m <> "" -> In (extName m) (map fst es')).
Proof.
  intros fullPath Hfp Hv.
  destruct (run_entries dirname t es Hfp Hv) as [w' [Hrun Hfp']].
  exists w', (entries_run (map fst es) es). split; [assumption|].
  split; [assumption|]. split.
  - intros k Hk. apply assoc_In in Hk.
    destruct (entries_run_names k _ _ Hv Hk) as [H|H]; [left; apply assoc_In|right]; auto.
  - intros m Hm Em. apply assoc_In.
    destruct (settled_run (map fst es) es m Hv Hm) as [E|[Hx _]]; [contradiction | auto].
Qed.

Lemma only_extension_folders_appear_witness :
  exists w' es',
    run ["app"] disk_dirs = (Ok tt, w')
    /\ lookup (path_join ["app"] "files") (disk w') = Some (Dir es')
    /\ (forall k, In k (map fst es') ->
          In k ["images"; "photos.old"]
          \/ exists m, In m ["images"; "photos.old"] /\ extName m <> "" /\ k = extName m)
    /\ (forall m, In m ["images"; "photos.old"] -> extName m <> "" ->
          In (extName m) (map fst es')).
Proof.
  apply (only_extension_folders_appear ["app"] disk_dirs
           [("images", Dir [("logo.png", File "L")]);
            ("photos.old", Dir [("p1.jpg", File "P")])]).
  - reflexivity.
  - apply Forall_valid_nameb. reflexivity.
Defined.

End Reaching.


Section Outside.

Lemma apart_cons c p q : apart (c :: p) (c :: q) -> apart p q.
Proof. unfold apart. simpl. rewrite String.eqb_refl. auto. Qed.

Lemma modify_apart p f : forall t t' q,
  modify p f t = Some t' -> apart p q -> lookup q t' = lookup q t.
Proof.
  induction p as [|c p IH]; intros t t' q Hm Hap.
  - destruct Hap as [H _]. discriminate.
  - destruct t as [|es]; [discriminate|]. simpl in Hm.
    destruct (assoc c es) as [m|] eqn:Ec; [|discriminate].
    destruct (modify p f m) as [m'|] eqn:Em; [|discriminate].
    inversion Hm; subst t'.
    destruct q as [|b q]; [destruct Hap as [_ H]; discriminate|].
    simpl. destruct (String.eqb_spec c b) as [->|Hne].
    + rewrite assoc_bind_eq, Ec. apply IH; [assumption|].
      apply (apart_cons b). assumption.
    + rewrite assoc_bind_neq by assumption. reflexivity.
Qed.

Lemma mkdir_p_apart p : forall t t' q,
  mkdir_p p t = Ok t' -> apart p q -> lookup q t' = lookup q t.
Proof.
  induction p as [|c p IH]; intros t t' q Hm Hap.
  - destruct Hap as [H _]. discriminate.
  - destruct t as [|es]; [discriminate|]. simpl in Hm.
    destruct (mkdir_p p (match assoc c es with Some m => m | None => Dir [] end))
      as [m'|] eqn:Em; [|discriminate].
    inversion Hm; subst t'.
    destruct q as [|b q]; [destruct Hap as [_ H]; discriminate|].
    simpl. destruct (String.eqb_spec c b) as [->|Hne].
    + rewrite assoc_bind_eq.
      rewrite (IH _ _ q Em) by (apply (apart_cons b); assumption).
      destruct (assoc b es); [reflexivity|].
      destruct q as [|b' q]; [|reflexivity].
      destruct Hap as [_ H]. simpl in H. rewrite String.eqb_refl in H. discriminate.
    + rewrite assoc_bind_neq by assumption. reflexivity.
Qed.

Lemma is_prefix_trans_app p s q : is_prefix (p ++ s) q = true -> is_prefix p q = true.
Proof.
  revert q. induction p as [|c p IH]; intros q H; [reflexivity|].
  destruct q as [|b q]; [discriminate|]. simpl in *.
  apply andb_true_iff in H. destruct H as [H1 H2]. rewrite H1. simpl. auto.
Qed.

Lemma is_prefix_of_app q p s :
  is_prefix q (p ++ s) = true -> is_prefix q p = true \/ is_prefix p q = true.
Proof.
  revert p. induction q as [|b q IH]; intros p H; [auto|].
  destruct p as [|c p]; [auto|]. simpl in *.
  apply andb_true_iff in H. destruct H as [H1 H2].
  rewrite String.eqb_sym in H1. rewrite H1. rewrite String.eqb_sym in H1. rewrite H1.
  simpl. auto.
Qed.

(** What is apart from a directory is apart from everything below it. *)
Lemma apart_below p s q : apart p q -> apart (p ++ s) q.
Proof.
  intros [H1 H2]. split.
  - destruct (is_prefix (p ++ s) q) eqn:E; [|reflexivity].
    apply is_prefix_trans_app in E. congruence.
  - destruct (is_prefix q (p ++ s)) eqn:E; [|reflexivity].
    apply is_prefix_of_app in E. destruct E; congruence.
Qed.

Lemma rename_apart fp a b t t' q :
  rename (fp ++ a) (fp ++ b) t = Ok t' -> a <> [] -> b <> [] -> apart fp q ->
  lookup q t' = lookup q t.
Proof.
  unfold rename. intros H Ha Hb Hap.
  destruct (lookup (fp ++ a) t) as [v|]; [|discriminate].
  destruct (path_eqb (fp ++ a) (fp ++ b)); [inversion H; reflexivity|].
  destruct (fp ++ a) eqn:Ea; [discriminate|].
  destruct (fp ++ b) eqn:Eb; [discriminate|].
  rewrite <- Ea, <- Eb in H.
  rewrite !parent_app in H by assumption.
  destruct (lookup (fp ++ parent b) t) as [[|ds]|]; try discriminate.
  destruct (is_prefix (fp ++ a) (fp ++ b)); [discriminate|].
  assert (Hmove :
    match modify (fp ++ parent a) (unbind_entry (basename (fp ++ a))) t with
    | Some t1 =>
        match modify (fp ++ parent b) (bind_entry (basename (fp ++ b)) v) t1 with
        | Some t2 => Ok t2
        | None => Throw ENOENT
        end
    | None => Throw ENOENT
    end = Ok t' -> lookup q t' = lookup q t).
  { destruct (modify (fp ++ parent a) _ t) as [t1|] eqn:E1; [|discriminate].
    destruct (modify (fp ++ parent b) _ t1) as [t2|] eqn:E2; [|discriminate].
    intros H'. inversion H'; subst t2.
    rewrite (modify_apart _ _ _ _ q E2), (modify_apart _ _ _ _ q E1);
      auto using apart_below. }
  destruct v; destruct (lookup (fp ++ b) t) as [[|[|? ?]]|]; try discriminate; auto.
Qed.

(** One callback changes nothing apart from the listed directory. *)
Lemma each_file_outside fp n i (w : world node) q :
  valid_name n -> apart fp q ->
  lookup q (disk (snd (each_file fp n i w))) = lookup q (disk w).
Proof.
  intros Hv Hap. pose proof (valid_name_lacks _ Hv) as Hs.
  assert (Hren : forall w0 : world node,
            lookup q (disk (snd (try_rename fp (extName n) n w0))) = lookup q (disk w0)).
  { intros w0. rewrite try_rename_run. cbv zeta.
    rewrite path_join_dest, path_join_name by assumption.
    change (@fs_rename node mem_fs) with rename.
    destruct (String.eqb (extName n) "").
    - destruct (rename (fp ++ [n]) (fp ++ [n]) (disk w0)) eqn:E; [|reflexivity].
      cbn [snd disk]. apply (rename_apart fp [n] [n] _ _ q E); auto; discriminate.
    - destruct (rename (fp ++ [n]) (fp ++ [extName n; n]) (disk w0)) eqn:E; [|reflexivity].
      cbn [snd disk]. apply (rename_apart fp [n] [extName n; n] _ _ q E); auto; discriminate. }
  rewrite each_file_run. cbv zeta.
  change (@fs_exists node mem_fs) with exists_at.
  change (@fs_mkdir_recursive node mem_fs) with mkdir_p.
  destruct (exists_at _ (disk w)); [rewrite Hren; reflexivity|].
  destruct (mkdir_p (path_join fp (extName n)) (disk w)) as [t'|err] eqn:Em; [|reflexivity].
  rewrite Hren. cbn [disk].
  rewrite path_join_category in Em by assumption.
  apply (mkdir_p_apart _ _ _ q Em).
  destruct (String.eqb (extName n) ""); [assumption | apply apart_below; assumption].
Qed.

Lemma forEach_outside fp l q : forall i (w : world node),
  Forall valid_name l -> apart fp q ->
  lookup q (disk (snd (forEach_from i l (each_file fp) w))) = lookup q (disk w).
Proof.
  induction l as [|n l IH]; intros i w Hl Hap; [reflexivity|].
  inversion Hl as [|? ? Hn Hl']; subst. simpl. unfold bind.
  pose proof (each_file_outside fp n i w q Hn Hap) as H1.
  destruct (each_file fp n i w) as [[[]|err] w1]; cbn [snd] in *.
  - rewrite IH by assumption. exact H1.
  - exact H1.
Qed.

(** X5: the run changes nothing outside the listed directory.  Whatever is
    at a path that is neither the listed directory, nor below it, nor one
    of its ancestors is there, unchanged, after the run. *)
Theorem outside_is_untouched dirname t es q :
  let fullPath := path_join dirname "files" in
  lookup fullPath t = Some (Dir es) ->
  Forall valid_name (map fst es) ->
  apart fullPath q ->
  exists w',
    run dirname t = (Ok tt, w')
    /\ lookup q (disk w') = lookup q t.
Proof.
  intros fullPath Hfp Hv Hap.
  destruct (run_entries dirname t es Hfp Hv) as [w' [Hrun _]].
  exists w'. split; [assumption|].
  assert (Hl : @fs_readdir node mem_fs fullPath t = Ok (map fst es)).
  { change (@fs_readdir node mem_fs) with readdir. unfold readdir.
    rewrite Hfp. reflexivity. }
  rewrite (run_listing dirname t (map fst es) Hl) in Hrun. fold fullPath in Hrun.
  pose proof (forEach_outside fullPath (map fst es) q 0
                (mkWorld t [] [call_readdir fullPath]) Hv Hap) as Hout.
  destruct (forEach_from 0 (map fst es) _ _) as [[a|err] w0];
    inversion Hrun; subst; exact Hout.
Qed.

Lemma outside_is_untouched_witness :
  exists w',
    run ["app"] disk_scenario = (Ok tt, w')
    /\ lookup ["app"; "main.js"] (disk w') = lookup ["app"; "main.js"] disk_scenario.
Proof.
  apply (outside_is_untouched ["app"] disk_scenario
           [("a.txt", File "A"); ("b.jpg", File "B"); ("c.txt", File "C");
            ("notes", File "N")] ["app"; "main.js"]).
  - reflexivity.
  - apply Forall_valid_nameb. reflexivity.
  - split; reflexivity.
Defined.

End Outside.


Section Traces.
Context {FS : Type} `{FileSystem FS}.

Lemma try_rename_lines fp x n (w : world FS) :
  exists line,
    console (snd (try_rename fp x n w)) = console w ++ [line]
    /\ is_outcome line = true /\ entry_line line
    /\ calls (snd (try_rename fp x n w))
       = calls w ++ [call_rename (path_join fp n) (path_join (path_join fp x) n)]
    /\ fst (try_rename fp x n w) = Ok tt.
Proof.
  rewrite try_rename_run. cbv zeta.
  destruct (fs_rename _ _ (disk w)); eexists; cbn [snd fst console calls];
    repeat split; reflexivity.
Qed.

(** What one callback writes and calls: one rename and one outcome line,
    unless [mkdirSync] throws. *)
Lemma each_file_lines fp n i (w : world FS) :
  exists ls cs,
    console (snd (each_file fp n i w)) = console w ++ ls
    /\ calls (snd (each_file fp n i w)) = calls w ++ cs
    /\ Forall entry_line ls
    /\ (fst (each_file fp n i w) = Ok tt ->
        length (filter is_outcome ls) = 1
        /\ filter is_rename cs = [rename_of fp n]).
Proof.
  rewrite each_file_run. cbv zeta.
  destruct (fs_exists _ (disk w)).
  - destruct (try_rename_lines fp (extName n) n
                (mkWorld (disk w) (console w ++ [folder_exists])
                   (calls w ++ [call_exists (path_join fp (extName n))])))
      as [line [Hc [Ho [He [Hcalls _]]]]].
    cbn [console calls] in Hc, Hcalls.
    exists [folder_exists; line],
      [call_exists (path_join fp (extName n)); rename_of fp n].
    rewrite Hc, Hcalls, <- !app_assoc. repeat split; auto.
    + repeat constructor. assumption.
    + simpl. rewrite Ho. reflexivity.
  - destruct (fs_mkdir_recursive _ (disk w)) as [d'|err].
    + destruct (try_rename_lines fp (extName n) n
                  (mkWorld d' (console w)
                     ((calls w ++ [call_exists (path_join fp (extName n))])
                      ++ [call_mkdir (path_join fp (extName n))])))
        as [line [Hc [Ho [He [Hcalls _]]]]].
      cbn [console calls] in Hc, Hcalls.
      exists [line],
        [call_exists (path_join fp (extName n)); call_mkdir (path_join fp (extName n));
         rename_of fp n].
      rewrite Hc, Hcalls, <- !app_assoc. repeat split; auto.
      simpl. rewrite Ho. reflexivity.
    + exists [], [call_exists (path_join fp (extName n));
                  call_mkdir (path_join fp (extName n))].
      cbn [snd fst console calls]. rewrite app_nil_r, <- !app_assoc.
      repeat split; auto; discriminate.
Qed.

Lemma forEach_lines fp l : forall i (w : world FS),
  exists ls,
    console (snd (forEach_from i l (each_file fp) w)) = console w ++ ls
    /\ Forall entry_line ls.
Proof.
  induction l as [|n l IH]; intros i w; simpl.
  - exists []. rewrite app_nil_r. auto.
  - unfold bind.
    destruct (each_file_lines fp n i w) as [ls [cs [Hc [_ [Hl _]]]]].
    destruct (each_file fp n i w) as [[[]|err] w1]; cbn [snd] in *.
    + destruct (IH (S i) w1) as [ls2 [Hc2 Hl2]].
      exists (ls ++ ls2). rewrite Hc2, Hc, app_assoc. split; [reflexivity|].
      apply Forall_app. auto.
    + exists ls. auto.
Qed.

(** X6: the script never throws, whatever the provider does.  It ends
    normally, and [Error reading directory:] is on the console at most
    once, as the last line: every line before it is one of [folder
    exists], [File moved successfully!] and the error of a rename. *)
Theorem script_never_throws dirname (d : FS) :
  exists w' ls,
    run dirname d = (Ok tt, w')
    /\ Forall entry_line ls
    /\ (console w' = ls \/ exists err, console w' = ls ++ [Error_reading_directory err]).
Proof.
  destruct (fs_readdir (path_join dirname "files") d) as [l|err] eqn:Hl.
  - rewrite (run_listing dirname d l Hl).
    destruct (forEach_lines (path_join dirname "files") l 0
                (mkWorld d [] [call_readdir (path_join dirname "files")]))
      as [ls [Hc Hls]].
    cbn [console app] in Hc.
    destruct (forEach_from 0 l _ _) as [[[]|err] w0]; cbn [snd] in Hc.
    + exists w0, ls. auto.
    + eexists; exists ls. split; [reflexivity|]. split; [assumption|].
      right. exists err. cbn [console]. rewrite Hc. reflexivity.
  - rewrite (run_unlistable dirname d err Hl).
    eexists; exists []. split; [reflexivity|]. split; [constructor|].
    right. exists err. reflexivity.
Qed.

Lemma forEach_from_app (f : string -> nat -> M FS unit) l1 : forall l2 i w,
  forEach_from i (l1 ++ l2) f w
  = match forEach_from i l1 f w with
    | (Ok _, w1) => forEach_from (i + length l1) l2 f w1
    | (Throw err, w1) => (Throw err, w1)
    end.
Proof.
  induction l1 as [|n l1 IH]; intros l2 i w; simpl.
  - rewrite Nat.add_0_r. reflexivity.
  - unfold bind. destruct (f n i w) as [[[]|err] w1]; [|reflexivity].
    rewrite IH. replace (S i + length l1) with (i + S (length l1)) by lia. reflexivity.
Qed.

(** X7: a failure of [mkdirSync] ends the batch where it happens, for
    every provider and at every place of the listing: what was done for
    the entries before stays done, the entry gets no rename and no line on
    the console, and no call at all is made for the entries after it. *)
Theorem mkdir_failure_skips_the_rest fp before file after i (w w1 : world FS) err :
  let folder := path_join fp (extName file) in
  forEach_from i before (each_file fp) w = (Ok tt, w1) ->
  fs_exists folder (disk w1) = false ->
  fs_mkdir_recursive folder (disk w1) = Throw err ->
  forEach_from i (before ++ file :: after) (each_file fp) w
  = (Throw err,
     mkWorld (disk w1) (console w1)
       ((calls w1 ++ [call_exists folder]) ++ [call_mkdir folder])).
Proof.
  intros folder Hbefore Hex Hmk.
  rewrite forEach_from_app, Hbefore. cbn [forEach_from]. unfold bind.
  rewrite each_file_run. cbv zeta. fold folder. rewrite Hex, Hmk. reflexivity.
Qed.

End Traces.

Lemma mkdir_failure_skips_the_rest_witness :
  forEach_from 0 (["a.txt"] ++ "b.jpg" :: ["c.png"; "txt"]) (each_file ["app"; "files"])
    (mkWorld disk_full_later [] [])
  = (Throw ENOSPC,
     mkWorld
       (mkF (in_app [("b.jpg", File "B"); ("c.png", File "C");
                     ("txt", Dir [("a.txt", File "A")])]) device_full)
       [folder_exists; File_moved_successfully]
       [call_exists ["app"; "files"; "txt"];
        call_rename ["app"; "files"; "a.txt"] ["app"; "files"; "txt"; "a.txt"];
        call_exists ["app"; "files"; "jpg"];
        call_mkdir ["app"; "files"; "jpg"]]).
Proof.
  apply (mkdir_failure_skips_the_rest ["app"; "files"] ["a.txt"] "b.jpg" ["c.png"; "txt"] 0
           (mkWorld disk_full_later [] [])
           (mkWorld
              (mkF (in_app [("b.jpg", File "B"); ("c.png", File "C");
                            ("txt", Dir [("a.txt", File "A")])]) device_full)
              [folder_exists; File_moved_successfully]
              [call_exists ["app"; "files"; "txt"];
               call_rename ["app"; "files"; "a.txt"] ["app"; "files"; "txt"; "a.txt"]])
           ENOSPC).
  - vm_compute. reflexivity.
  - reflexivity.
  - reflexivity.
Defined.

Section Attempts.

(** With no [mkdir] made to fail, the callback ends normally and the
    forced failures stay what they are. *)
Lemma each_file_faulty_ok fp n i (w : world fdisk) es :
  valid_name n -> lookup fp (tree (disk w)) = Some (Dir es) ->
  (forall p, fault (disk w) (call_mkdir p) = None) ->
  fst (each_file fp n i w) = Ok tt
  /\ fault (disk (snd (each_file fp n i w))) = fault (disk w).
Proof.
  intros Hv Hfp Hmk. pose proof (valid_name_lacks _ Hv) as Hs.
  assert (Hren : forall w0 : world fdisk,
            fst (try_rename fp (extName n) n w0) = Ok tt
            /\ fault (disk (snd (try_rename fp (extName n) n w0))) = fault (disk w0)).
  { intros w0. rewrite try_rename_run. cbv zeta.
    change (@fs_rename fdisk faulty_fs ?a ?b ?d)
      with (forced (call_rename a b) d (rename a b (tree d))).
    unfold forced. destruct (fault (disk w0) _); [split; reflexivity|].
    destruct (rename _ _ (tree (disk w0))); split; reflexivity. }
  rewrite each_file_run. cbv zeta.
  change (@fs_exists fdisk faulty_fs) with (fun p d => exists_at p (tree d)).
  cbv beta.
  destruct (exists_at (path_join fp (extName n)) (tree (disk w))) eqn:Hex;
    [use_rename Hren|].
  change (@fs_mkdir_recursive fdisk faulty_fs ?p ?d)
    with (forced (call_mkdir p) d (mkdir_p p (tree d))).
  unfold forced. rewrite Hmk.
  rewrite path_join_category in * by assumption.
  destruct (String.eqb_spec (extName n) "") as [E|E].
  { unfold exists_at in Hex. rewrite Hfp in Hex. discriminate. }
  unfold exists_at in Hex. rewrite (lookup_entry _ _ _ _ Hfp) in Hex.
  destruct (assoc (extName n) es) eqn:Ea; [discriminate|].
  destruct (mkdir_p_focus fp [extName n] (tree (disk w)) (Dir es)
              (Dir (bind_entry (extName n) (Dir []) es)) Hfp) as [t' [Ht' _]].
  { simpl. rewrite Ea. reflexivity. }
  rewrite Ht'. use_rename Hren.
Qed.

Lemma forEach_attempts fp l : forall i (w : world fdisk) es,
  Forall valid_name l -> lookup fp (tree (disk w)) = Some (Dir es) ->
  (forall p, fault (disk w) (call_mkdir p) = None) ->
  exists w' ls cs,
    forEach_from i l (each_file fp) w = (Ok tt, w')
    /\ console w' = console w ++ ls
    /\ calls w' = calls w ++ cs
    /\ Forall entry_line ls
    /\ length (filter is_outcome ls) = length l
    /\ filter is_rename cs = map (rename_of fp) l.
Proof.
  induction l as [|n l IH]; intros i w es Hl Hfp Hmk; simpl.
  - exists w, [], []. rewrite !app_nil_r. repeat split; auto.
  - inversion Hl as [|? ? Hn Hl']; subst.
    destruct (each_file_faulty_ok fp n i w es Hn Hfp Hmk) as [Hok Hfault].
    destruct (each_file_faulty fp n i w es Hn Hfp) as [r [w1 [es1 [H1 [Hfp1 _]]]]].
    destruct (each_file_lines fp n i w) as [ls1 [cs1 [Hc1 [Hk1 [Hl1 Hone]]]]].
    specialize (Hone Hok). destruct Hone as [Hout Hren].
    rewrite H1 in Hok, Hfault, Hc1, Hk1. cbn [fst snd] in *. subst r.
    unfold bind. rewrite H1.
    destruct (IH (S i) w1 es1 Hl' Hfp1) as [w2 [ls2 [cs2 [H2 [Hc2 [Hk2 [Hl2 [Hout2 Hren2]]]]]]]].
    { intros p. rewrite Hfault. apply Hmk. }
    exists w2, (ls1 ++ ls2), (cs1 ++ cs2).
    rewrite Hc2, Hk2, Hc1, Hk1, !app_assoc, !filter_app, length_app, Hout, Hout2, Hren, Hren2.
    repeat split; auto. apply Forall_app. auto.
Qed.

(** X8: a rename that fails never ends the batch.  Whichever renames are
    made to fail, as long as the listing and [mkdir] are not, the run
    attempts exactly one rename for each listed entry, in the order of the
    listing, writes exactly one outcome line for each ([File moved
    successfully!] or the error), and never writes [Error reading
    directory:]. *)
Theorem every_entry_is_attempted dirname (d : fdisk) es :
  let fullPath := path_join dirname "files" in
  lookup fullPath (tree d) = Some (Dir es) ->
  Forall valid_name (map fst es) ->
  (forall p, fault d (call_mkdir p) = None) ->
  fault d (call_readdir fullPath) = None ->
  exists w',
    run dirname d = (Ok tt, w')
    /\ filter is_rename (calls w') = map (rename_of fullPath) (map fst es)
    /\ length (filter is_outcome (console w')) = length es
    /\ Forall entry_line (console w').
Proof.
  intros fullPath Hfp Hv Hmk Hrd.
  assert (Hl : @fs_readdir fdisk faulty_fs fullPath d = Ok (map fst es)).
  { change (@fs_readdir fdisk faulty_fs) with freaddir. unfold freaddir, readdir.
    rewrite Hrd, Hfp. reflexivity. }
  rewrite (run_listing dirname d (map fst es) Hl). fold fullPath.
  destruct (forEach_attempts fullPath (map fst es) 0
              (mkWorld d [] [call_readdir fullPath]) es Hv Hfp Hmk)
    as [w' [ls [cs [Hrun [Hc [Hk [Hls [Hout Hren]]]]]]]].
  rewrite Hrun. exists w'. split; [reflexivity|].
  cbn [console calls app] in Hc, Hk. rewrite Hc, Hk. cbn [filter is_rename].
  rewrite Hren, Hout, length_map. auto.
Qed.

Lemma every_entry_is_attempted_witness :
  exists w',
    run ["app"] disk_refused = (Ok tt, w')
    /\ filter is_rename (calls w')
       = map (rename_of (path_join ["app"] "files")) ["b.txt"; "txt"]
    /\ length (filter is_outcome (console w')) = 2
    /\ Forall entry_line (console w').
Proof.
  apply (every_entry_is_attempted ["app"] disk_refused
           [("b.txt", File "new"); ("txt", Dir [("b.txt", File "old")])]).
  - reflexivity.
  - apply Forall_valid_nameb. reflexivity.
  - reflexivity.
  - reflexivity.
Defined.

End Attempts.

Section Category.

Lemma string_of_list_ascii_app a b :
  string_of_list_ascii (a ++ b) = (string_of_list_ascii a ++ string_of_list_ascii b)%string.
Proof. induction a as [|c a IH]; simpl; [reflexivity | rewrite IH; reflexivity]. Qed.

(** X9: the category of a name without a slash is a plain path component.
    It has neither a dot nor a slash, so its own category is empty: a
    folder named by a category is never itself taken for an entry to
    move.  When it is not empty it is a valid entry name, and the name is
    a non-empty stem, a dot, and the category. *)
Theorem category_is_a_plain_suffix n :
  lacks "/"%char n ->
  lacks "."%char (extName n)
  /\ lacks "/"%char (extName n)
  /\ extName (extName n) = ""
  /\ (extName n <> "" ->
      valid_name (extName n)
      /\ exists stem, stem <> "" /\ n = (stem ++ "." ++ extName n)%string).
Proof.
  intros Hs. destruct (extName_lacks n Hs) as [Hd Hsl].
  split; [assumption|]. split; [assumption|].
  split; [apply extName_extName; assumption|].
  intros E. split; [apply valid_category; assumption|].
  rewrite extName_after_last_dot in * by assumption.
  unfold after_last_dot in *.
  destruct (split_last_dot (list_ascii_of_string n)) as [[a b]|] eqn:Hsplit;
    [|contradiction].
  destruct a as [|c a]; [contradiction|].
  destruct (split_last_dot_Some _ _ _ Hsplit) as [Heq _].
  exists (string_of_list_ascii (c :: a)). split; [discriminate|].
  rewrite <- (string_of_list_ascii_of_string n), Heq, string_of_list_ascii_app.
  reflexivity.
Qed.

Lemma category_is_a_plain_suffix_witness :
  lacks "."%char (extName "archive.tar.gz")
  /\ lacks "/"%char (extName "archive.tar.gz")
  /\ extName (extName "archive.tar.gz") = ""
  /\ (extName "archive.tar.gz" <> "" ->
      valid_name (extName "archive.tar.gz")
      /\ exists stem, stem <> "" /\ "archive.tar.gz" = (stem ++ "." ++ extName "archive.tar.gz")%string).
Proof.
  apply (category_is_a_plain_suffix "archive.tar.gz").
  apply lacks_decide. reflexivity.
Defined.

End Category.
